(** * Token vesting: the vesting ledger and the claim engine

    A shallow embedding of the on-chain token-vesting program
    ([create_employee_vesting], [claim_tokens]) as its sources give it in
    TECHNICAL_DOCUMENTATION.md and ANCHOR_ACCOUNTS_GUIDE.md, together with
    the properties the specification states about it.

    Amounts and timestamps are Rust [i64] values: they are modelled as [Z]
    with the range, the saturation and the overflow behaviour written out.
    A handler is a computation in a small state-and-error monad over the
    accounts the instruction receives. *)

From Stdlib Require Import ZArith Lia Bool List.
From stdpp Require Import base option gmap.

Local Open Scope Z_scope.

(** ** Signed 64-bit arithmetic *)

Module I64.

Definition MIN : Z := -9223372036854775808.
Definition MAX : Z := 9223372036854775807.
Definition modulus : Z := 18446744073709551616.

(** [in_range z]: [z] is representable as an [i64]. *)
Definition in_range (z : Z) : bool := (MIN <=? z) && (z <=? MAX).

(** Two's-complement wrap-around of an out-of-range result. *)
Definition wrap (z : Z) : Z := (z - MIN) mod modulus + MIN.

(** [i64::saturating_sub]: the difference clamped to [MIN .. MAX]. *)
Definition saturating_sub (a b : Z) : Z := Z.max MIN (Z.min MAX (a - b)).

(** [x as u64]: reinterpretation of the bit pattern as unsigned. *)
Definition as_u64 (z : Z) : Z := z mod modulus.

End I64.

(** ** Outcomes of an instruction *)

(** The program's own error codes ([#[error_code] pub enum ErrorCode]). *)
Inductive ErrorCode : Type :=
| ClaimNotAvailableYet
| NothingToClaim.

(** Rust run-time aborts of integer arithmetic. *)
Inductive Panic : Type :=
| MultiplyWithOverflow
| AddWithOverflow
| DivideByZero
| DivideWithOverflow.

(** Account-constraint failures raised by the framework before a handler
    runs ([has_one], [init]). *)
Inductive ConstraintError : Type :=
| ConstraintHasOne
| AccountAlreadyInUse.

Inductive Failure : Type :=
| ProgramError (code : ErrorCode)
| Abort (p : Panic)
| Constraint (c : ConstraintError)
| TransferFailed.

Inductive Result (A : Type) : Type :=
| Ok (a : A)
| Err (f : Failure).

Arguments Ok {A} a.
Arguments Err {A} f.

Definition result_bind {A B : Type} (r : Result A) (k : A -> Result B) : Result B :=
  match r with
  | Ok a => k a
  | Err f => Err f
  end.

(** ** Accounts *)

Definition Pubkey : Type := N.

(** [pub struct EmployeeAccount]. *)
Record EmployeeAccount : Type := mkEmployeeAccount {
  beneficiary : Pubkey;
  start_time : Z;
  end_time : Z;
  total_amount : Z;
  total_withdrawn : Z;
  cliff_time : Z;
  vesting_account : Pubkey;
  bump : Z
}.

(** [pub struct VestingAccount]; the company name is kept as its bytes. *)
Record VestingAccount : Type := mkVestingAccount {
  owner : Pubkey;
  mint : Pubkey;
  treasury_token_account : Pubkey;
  company_name : list Z;
  treasury_bump : Z;
  vesting_bump : Z
}.

(** Every field of a stored [EmployeeAccount] is an [i64]. *)
Definition well_formed (e : EmployeeAccount) : Prop :=
  I64.in_range (start_time e) = true /\
  I64.in_range (end_time e) = true /\
  I64.in_range (total_amount e) = true /\
  I64.in_range (total_withdrawn e) = true /\
  I64.in_range (cliff_time e) = true.

Definition set_total_withdrawn (w : Z) (e : EmployeeAccount) : EmployeeAccount :=
  {| beneficiary := beneficiary e;
     start_time := start_time e;
     end_time := end_time e;
     total_amount := total_amount e;
     total_withdrawn := w;
     cliff_time := cliff_time e;
     vesting_account := vesting_account e;
     bump := bump e |}.

(** ** Checked arithmetic and the vesting calculation *)

Section Arithmetic.

(** [overflow_checks]: the build profile's switch. With it, [*] and [+=]
    abort on overflow; without it they wrap. Division by zero aborts in
    both. *)
Variable overflow_checks : bool.

Definition i64_mul (a b : Z) : Result Z :=
  if I64.in_range (a * b) then Ok (a * b)
  else if overflow_checks then Err (Abort MultiplyWithOverflow)
  else Ok (I64.wrap (a * b)).

Definition i64_add (a b : Z) : Result Z :=
  if I64.in_range (a + b) then Ok (a + b)
  else if overflow_checks then Err (Abort AddWithOverflow)
  else Ok (I64.wrap (a + b)).

(** Rust's [/] on [i64]: truncation toward zero; aborts on a zero divisor
    and on [MIN / -1]. *)
Definition i64_div (a b : Z) : Result Z :=
  if b =? 0 then Err (Abort DivideByZero)
  else if (a =? I64.MIN) && (b =? -1) then Err (Abort DivideWithOverflow)
  else Ok (Z.quot a b).

(** The vesting calculation of [claim_tokens]:
<<
    let time_since_start = current_time.saturating_sub(start_time);
    let total_vesting_time = end_time.saturating_sub(start_time);
    let vested_amount = if current_time >= end_time {
        total_amount
    } else {
        (total_amount * time_since_start) / total_vesting_time
    };
>> *)
Definition vested_amount (e : EmployeeAccount) (current_time : Z) : Result Z :=
  let time_since_start := I64.saturating_sub current_time (start_time e) in
  let total_vesting_time := I64.saturating_sub (end_time e) (start_time e) in
  if current_time >=? end_time e then Ok (total_amount e)
  else result_bind (i64_mul (total_amount e) time_since_start)
                   (fun product => i64_div product total_vesting_time).

(** [let claimable_amount = vested_amount.saturating_sub(total_withdrawn);] *)
Definition claimable_amount (e : EmployeeAccount) (current_time : Z) : Result Z :=
  result_bind (vested_amount e current_time)
              (fun vested => Ok (I64.saturating_sub vested (total_withdrawn e))).

End Arithmetic.

(** ** The handler monad

    A handler reads and writes the accounts of its context; an error stops
    it and leaves the accounts as they were at that point. The token
    program is an external service: [Tokens] is its ledger. *)

Section Handlers.

Variable Tokens : Type.

Record Accounts : Type := mkAccounts {
  employee_account : EmployeeAccount;
  tokens : Tokens
}.

Definition Handler (A : Type) : Type := Accounts -> Result A * Accounts.

Definition ret {A : Type} (a : A) : Handler A := fun s => (Ok a, s).

Definition bind {A B : Type} (m : Handler A) (k : A -> Handler B) : Handler B :=
  fun s => match m s with
           | (Ok a, s') => k a s'
           | (Err f, s') => (Err f, s')
           end.

Definition throw {A : Type} (f : Failure) : Handler A := fun s => (Err f, s).

Definition lift {A : Type} (r : Result A) : Handler A := fun s => (r, s).

Definition read_employee : Handler EmployeeAccount :=
  fun s => (Ok (employee_account s), s).

Definition write_employee (e : EmployeeAccount) : Handler unit :=
  fun s => (Ok tt, {| employee_account := e; tokens := tokens s |}).

(** The cross-program invocation of the token program:
    [transfer_checked l amount] moves [amount] (a [u64]) from the treasury
    to the beneficiary's token account, or fails. *)
Definition invoke_transfer (transfer_checked : Tokens -> Z -> option Tokens)
    (amount : Z) : Handler unit :=
  fun s => match transfer_checked (tokens s) amount with
           | Some l => (Ok tt, {| employee_account := employee_account s; tokens := l |})
           | None => (Err TransferFailed, s)
           end.

End Handlers.

Arguments mkAccounts {Tokens} _ _.
Arguments employee_account {Tokens} _.
Arguments tokens {Tokens} _.
Arguments ret {Tokens A} a.
Arguments bind {Tokens A B} m k.
Arguments throw {Tokens A} f.
Arguments lift {Tokens A} r.
Arguments read_employee {Tokens}.
Arguments write_employee {Tokens} e.
Arguments invoke_transfer {Tokens} transfer_checked amount.

Notation "'let*' x ':=' m 'in' k" := (bind m (fun x => k))
  (at level 10, x name, m at level 100, k at level 200).
Notation "'run' m 'then' k" := (bind m (fun _ => k))
  (at level 10, m at level 100, k at level 200).

(** ** The instructions *)

Section Instructions.

Variable overflow_checks : bool.
Variable Tokens : Type.
Variable transfer_checked : Tokens -> Z -> option Tokens.

(** [claim_tokens], with [now = Clock::get()?.unix_timestamp]:
    + the cliff check, [if now < employee_account.cliff_time] returns
      [ClaimNotAvailableYet];
    + the vested and the claimable amount;
    + [if claimable_amount == 0] returns [NothingToClaim];
    + [transfer_checked(cpi_context, claimable_amount as u64, decimals)?];
    + [total_withdrawn += claimable_amount], then [Ok(())]. *)
Definition claim_tokens (now : Z) : Handler Tokens unit :=
  let* employee := read_employee in
  if now <? cliff_time employee then throw (ProgramError ClaimNotAvailableYet)
  else
    let* claimable := lift (claimable_amount overflow_checks employee now) in
    if claimable =? 0 then throw (ProgramError NothingToClaim)
    else
      run invoke_transfer transfer_checked (I64.as_u64 claimable) then
      let* withdrawn := lift (i64_add overflow_checks (total_withdrawn employee) claimable) in
      run write_employee (set_total_withdrawn withdrawn employee) then
      ret tt.

(** A transaction is atomic: the accounts are committed only when the
    handler returns [Ok]. *)
Definition process_claim (now : Z) (s : Accounts Tokens) : Accounts Tokens :=
  match claim_tokens now s with
  | (Ok _, s') => s'
  | (Err _, _) => s
  end.

(** The schedule after each of a sequence of claims. A claim arrives with
    its clock reading and the token ledger of that moment (deposits into
    the treasury happen outside the program). *)
Fixpoint claim_trace (e : EmployeeAccount) (claims : list (Z * Tokens))
    : list EmployeeAccount :=
  match claims with
  | [] => []
  | (now, l) :: rest =>
      let e' := employee_account (process_claim now (mkAccounts e l)) in
      e' :: claim_trace e' rest
  end.

End Instructions.

Arguments claim_tokens overflow_checks {Tokens} transfer_checked now.
Arguments process_claim overflow_checks {Tokens} transfer_checked now s.
Arguments claim_trace overflow_checks {Tokens} transfer_checked e claims.

(** The context of [create_employee_vesting]
    ([pub struct CreateEmployeeAccount]): the signer, the beneficiary, the
    company's vesting account with its address, and the canonical bump. *)
Record CreateEmployeeAccount : Type := mkCreateEmployeeAccount {
  ctx_owner : Pubkey;
  ctx_beneficiary : Pubkey;
  ctx_vesting_key : Pubkey;
  ctx_vesting_account : VestingAccount;
  ctx_bump : Z
}.

(** [create_employee_vesting]: the handler stores the parameters as they
    come.
<<
      *ctx.accounts.employee_account = EmployeeAccount {
          beneficiary: ctx.accounts.beneficiary.key(),
          start_time, end_time, total_amount,
          total_withdrawn: 0,
          cliff_time,
          vesting_account: ctx.accounts.vesting_account.key(),
          bump: ctx.bumps.employee_account,
      };
      Ok(())
>> *)
Definition create_employee_vesting (ctx : CreateEmployeeAccount)
    (start_time end_time total_amount cliff_time : Z) : Result EmployeeAccount :=
  Ok {| beneficiary := ctx_beneficiary ctx;
        start_time := start_time;
        end_time := end_time;
        total_amount := total_amount;
        total_withdrawn := 0;
        cliff_time := cliff_time;
        vesting_account := ctx_vesting_key ctx;
        bump := ctx_bump ctx |}.

(** The employee accounts of the program, addressed by the seeds of their
    derived address: the beneficiary and the vesting account. *)
Abbreviation Schedules := (gmap (Pubkey * Pubkey) EmployeeAccount).

(** The instruction as the framework runs it: [has_one = owner] on the
    vesting account, [init] on the employee account (the address must be
    free), then the handler. Of the account checks only these two are
    modelled: that the beneficiary is a system account and that the payer
    can fund the new account are left out, and the source does not say in
    which order the framework tests the two, so the properties below
    speak of what a successful creation implies and of failure as such,
    not of success from these checks alone nor of which error comes
    first. *)
Definition process_create_employee_vesting (store : Schedules)
    (ctx : CreateEmployeeAccount)
    (start_time end_time total_amount cliff_time : Z) : Result Schedules :=
  if negb (N.eqb (owner (ctx_vesting_account ctx)) (ctx_owner ctx))
  then Err (Constraint ConstraintHasOne)
  else
    match store !! (ctx_beneficiary ctx, ctx_vesting_key ctx) with
    | Some _ => Err (Constraint AccountAlreadyInUse)
    | None =>
        result_bind
          (create_employee_vesting ctx start_time end_time total_amount cliff_time)
          (fun e => Ok (<[(ctx_beneficiary ctx, ctx_vesting_key ctx) := e]> store))
    end.

(** ** A token ledger

    The token program's transfer on two balances, both [u64]: it fails when
    the treasury holds less than the amount. *)
Record TokenLedger : Type := mkTokenLedger {
  treasury_balance : Z;
  employee_balance : Z
}.

Definition spl_transfer_checked (l : TokenLedger) (amount : Z) : option TokenLedger :=
  if (amount <=? treasury_balance l) && (employee_balance l + amount <? I64.modulus)
  then Some {| treasury_balance := treasury_balance l - amount;
               employee_balance := employee_balance l + amount |}
  else None.

(** ** The specification's reference calculation

    [vestedAmount] as the specification words it, on mathematical
    integers: zero before the cliff, the total from the end on, and the
    floor of the linear share in between. *)
Definition vestedAmount_spec (e : EmployeeAccount) (now : Z) : Z :=
  if now <? cliff_time e then 0
  else if now >=? end_time e then total_amount e
  else (total_amount e * (now - start_time e)) / (end_time e - start_time e).

(** [nondecreasing l]: a clock that never runs backwards. *)
Fixpoint nondecreasing (l : list Z) : bool :=
  match l with
  | a :: (b :: _) as rest => (a <=? b) && nondecreasing rest
  | _ => true
  end.

(** The linear share the calculation aims at, on mathematical integers:
    the total from the end on, the floor of the proportional part before. *)
Definition linear_share (e : EmployeeAccount) (now : Z) : Z :=
  if now >=? end_time e then total_amount e
  else (total_amount e * (now - start_time e)) / (end_time e - start_time e).

(** A schedule on which the 64-bit calculation never leaves its range: a
    non-negative total, a start before the end, and a total that can be
    multiplied by the whole duration. *)
Definition sound_schedule (e : EmployeeAccount) : Prop :=
  0 <= total_amount e /\
  start_time e < end_time e /\
  total_amount e * (end_time e - start_time e) <= I64.MAX.

(** ** Schedules used in the examples *)

(** The four-year schedule with a one-year cliff. *)
Definition alice : EmployeeAccount :=
  {| beneficiary := 1%N; start_time := 0; end_time := 126144000;
     total_amount := 48000; total_withdrawn := 0; cliff_time := 31536000;
     vesting_account := 2%N; bump := 255 |}.

(** An allocation of [2^62] tokens over four seconds. *)
Definition wide_schedule : EmployeeAccount :=
  {| beneficiary := 1%N; start_time := 0; end_time := 4;
     total_amount := 4611686018427387904; total_withdrawn := 0; cliff_time := 0;
     vesting_account := 2%N; bump := 255 |}.

(** A schedule whose start and end coincide. *)
Definition zero_duration : EmployeeAccount :=
  {| beneficiary := 1%N; start_time := 100; end_time := 100;
     total_amount := 1000; total_withdrawn := 0; cliff_time := 0;
     vesting_account := 2%N; bump := 255 |}.

(** A schedule whose cliff lies before its start. *)
Definition early_cliff : EmployeeAccount :=
  {| beneficiary := 1%N; start_time := 100; end_time := 200;
     total_amount := 1000; total_withdrawn := 0; cliff_time := 0;
     vesting_account := 2%N; bump := 255 |}.

(** The same shape with a single token allocated. *)
Definition early_cliff_one_token : EmployeeAccount :=
  {| beneficiary := 1%N; start_time := 10; end_time := 20;
     total_amount := 1; total_withdrawn := 0; cliff_time := 0;
     vesting_account := 2%N; bump := 255 |}.

(** A schedule with a negative allocation. *)
Definition negative_total : EmployeeAccount :=
  {| beneficiary := 1%N; start_time := 0; end_time := 10;
     total_amount := -10; total_withdrawn := 0; cliff_time := 0;
     vesting_account := 2%N; bump := 255 |}.

(** The largest allocation, vesting from second 1 to the last second. *)
Definition largest_schedule : EmployeeAccount :=
  {| beneficiary := 1%N; start_time := 1; end_time := 9223372036854775807;
     total_amount := 9223372036854775807; total_withdrawn := 0; cliff_time := 0;
     vesting_account := 2%N; bump := 255 |}.

(** A company and the context in which its owner registers a beneficiary. *)
Definition acme : VestingAccount :=
  {| owner := 7%N; mint := 8%N; treasury_token_account := 9%N;
     company_name := [65; 99; 109; 101]; treasury_bump := 254;
     vesting_bump := 253 |}.

Definition register_alice : CreateEmployeeAccount :=
  {| ctx_owner := 7%N; ctx_beneficiary := 1%N; ctx_vesting_key := 2%N;
     ctx_vesting_account := acme; ctx_bump := 255 |}.

(** ** Helper methods and proposed instructions

    The documentation carries further code of the program: the helper
    methods of [EmployeeAccount] in the accounts guide and the
    instructions of the section on extensions ([calculate_vested_amount],
    [claim_vested_tokens], [update_employee_vesting], [revoke_vesting]).
    They use error codes the deployed [ErrorCode] does not have, and the
    plain [-] of Rust. *)

Inductive ExtensionError : Type :=
| InvalidBump
| CannotReduceVestedAmount
| InvalidEndTime
| InvalidAmount.

Inductive Fault : Type :=
| Core (f : Failure)
| Custom (x : ExtensionError)
| SubtractWithOverflow.

Inductive Outcome (A : Type) : Type :=
| Done (a : A)
| Failed (f : Fault).

Arguments Done {A} a.
Arguments Failed {A} f.

Definition and_then {A B : Type} (o : Outcome A) (k : A -> Outcome B) : Outcome B :=
  match o with
  | Done a => k a
  | Failed f => Failed f
  end.

Definition core {A : Type} (r : Result A) : Outcome A :=
  match r with
  | Ok a => Done a
  | Err f => Failed (Core f)
  end.

(** [require!(cond, error)]. *)
Definition require (cond : bool) (f : Fault) : Outcome unit :=
  if cond then Done tt else Failed f.

Notation "'let?' x ':=' m 'in' k" := (and_then m (fun x => k))
  (at level 10, x name, m at level 100, k at level 200).
Notation "'check' m 'then' k" := (and_then m (fun _ => k))
  (at level 10, m at level 100, k at level 200).

(** Rust's [-] on [i64]. *)
Definition i64_sub (overflow_checks : bool) (a b : Z) : Outcome Z :=
  if I64.in_range (a - b) then Done (a - b)
  else if overflow_checks then Failed SubtractWithOverflow
  else Done (I64.wrap (a - b)).

(** [pub fn is_fully_vested(&self, current_time: i64) -> bool]. *)
Definition is_fully_vested (e : EmployeeAccount) (current_time : Z) : bool :=
  current_time >=? end_time e.

(** [pub fn remaining_tokens(&self) -> i64]:
    [self.total_amount - self.total_withdrawn]. *)
Definition remaining_tokens (overflow_checks : bool) (e : EmployeeAccount) : Outcome Z :=
  i64_sub overflow_checks (total_amount e) (total_withdrawn e).

Definition set_total_amount (a : Z) (e : EmployeeAccount) : EmployeeAccount :=
  {| beneficiary := beneficiary e;
     start_time := start_time e;
     end_time := end_time e;
     total_amount := a;
     total_withdrawn := total_withdrawn e;
     cliff_time := cliff_time e;
     vesting_account := vesting_account e;
     bump := bump e |}.

Definition set_end_time (t : Z) (e : EmployeeAccount) : EmployeeAccount :=
  {| beneficiary := beneficiary e;
     start_time := start_time e;
     end_time := t;
     total_amount := total_amount e;
     total_withdrawn := total_withdrawn e;
     cliff_time := cliff_time e;
     vesting_account := vesting_account e;
     bump := bump e |}.

(** [update_vesting_schedule(&mut self, new_end_time, new_total_amount)] of
    the accounts guide, with [now = Clock::get()?.unix_timestamp]. The
    method writes each field as soon as its check has passed, so it
    returns the account as it stands together with the outcome.
<<
      if let Some(end_time) = new_end_time {
          require!(end_time > Clock::get()?.unix_timestamp, ErrorCode::InvalidEndTime);
          self.end_time = end_time;
      }
      if let Some(amount) = new_total_amount {
          require!(amount >= self.total_withdrawn, ErrorCode::InvalidAmount);
          self.total_amount = amount;
      }
      Ok(())
>> *)
Definition update_vesting_schedule (now : Z) (new_end_time new_total_amount : option Z)
    (e : EmployeeAccount) : Outcome unit * EmployeeAccount :=
  let step1 :=
    match new_end_time with
    | Some end_time =>
        if end_time >? now then (Done tt, set_end_time end_time e)
        else (Failed (Custom InvalidEndTime), e)
    | None => (Done tt, e)
    end in
  match step1 with
  | (Failed f, e1) => (Failed f, e1)
  | (Done _, e1) =>
      match new_total_amount with
      | Some amount =>
          if amount >=? total_withdrawn e1 then (Done tt, set_total_amount amount e1)
          else (Failed (Custom InvalidAmount), e1)
      | None => (Done tt, e1)
      end
  end.

(** [fn calculate_vested_amount(employee, current_time) -> Result<i64>]:
<<
      if current_time < employee.cliff_time { return Ok(0); }
      if current_time >= employee.end_time { return Ok(employee.total_amount); }
      let vesting_duration = employee.end_time - employee.start_time;
      let elapsed = current_time - employee.start_time;
      let vested = (employee.total_amount * elapsed) / vesting_duration;
      Ok(vested)
>> *)
Definition calculate_vested_amount (overflow_checks : bool)
    (employee : EmployeeAccount) (current_time : Z) : Outcome Z :=
  if current_time <? cliff_time employee then Done 0
  else if current_time >=? end_time employee then Done (total_amount employee)
  else
    let? vesting_duration :=
      i64_sub overflow_checks (end_time employee) (start_time employee) in
    let? elapsed := i64_sub overflow_checks current_time (start_time employee) in
    let? product := core (i64_mul overflow_checks (total_amount employee) elapsed) in
    core (i64_div product vesting_duration).

(** [claim_vested_tokens(ctx, employee_bump)] on the employee account and
    the token ledger, with [current_time] the clock reading. The amount
    handed to [token::transfer] is positive at that point, so its unsigned
    reading is the amount itself.
<<
      require_eq!(employee_bump, employee_account.bump, ErrorCode::InvalidBump);
      require!(current_time >= employee_account.cliff_time, ErrorCode::ClaimNotAvailableYet);
      let vested_amount = calculate_vested_amount(&employee_account, current_time)?;
      let claimable = vested_amount - employee_account.total_withdrawn;
      require!(claimable > 0, ErrorCode::NothingToClaim);
      token::transfer(..., claimable)?;
      employee_account.total_withdrawn += claimable;
      Ok(())
>> *)
Definition claim_vested_tokens (overflow_checks : bool) {Tokens : Type}
    (transfer : Tokens -> Z -> option Tokens)
    (employee_bump current_time : Z) (s : Accounts Tokens) : Outcome (Accounts Tokens) :=
  let employee := employee_account s in
  check require (employee_bump =? bump employee) (Custom InvalidBump) then
  check require (current_time >=? cliff_time employee)
                (Core (ProgramError ClaimNotAvailableYet)) then
  let? vested := calculate_vested_amount overflow_checks employee current_time in
  let? claimable := i64_sub overflow_checks vested (total_withdrawn employee) in
  check require (claimable >? 0) (Core (ProgramError NothingToClaim)) then
  match transfer (tokens s) (I64.as_u64 claimable) with
  | None => Failed (Core TransferFailed)
  | Some l =>
      let? withdrawn :=
        core (i64_add overflow_checks (total_withdrawn employee) claimable) in
      Done (mkAccounts (set_total_withdrawn withdrawn employee) l)
  end.

(** [update_employee_vesting(ctx, new_total_amount, new_end_time)]. As in
    [update_vesting_schedule] a field is written once its check has
    passed.
<<
      let current_vested = calculate_vested_amount(&employee_account, current_time)?;
      if let Some(new_amount) = new_total_amount {
          require!(new_amount >= current_vested, ErrorCode::CannotReduceVestedAmount);
          employee_account.total_amount = new_amount;
      }
      if let Some(new_end) = new_end_time {
          require!(new_end > current_time, ErrorCode::InvalidEndTime);
          employee_account.end_time = new_end;
      }
      Ok(())
>> *)
Definition update_employee_vesting (overflow_checks : bool) (current_time : Z)
    (new_total_amount new_end_time : option Z) (e : EmployeeAccount)
    : Outcome unit * EmployeeAccount :=
  match calculate_vested_amount overflow_checks e current_time with
  | Failed f => (Failed f, e)
  | Done current_vested =>
      let step1 :=
        match new_total_amount with
        | Some new_amount =>
            if new_amount >=? current_vested
            then (Done tt, set_total_amount new_amount e)
            else (Failed (Custom CannotReduceVestedAmount), e)
        | None => (Done tt, e)
        end in
      match step1 with
      | (Failed f, e1) => (Failed f, e1)
      | (Done _, e1) =>
          match new_end_time with
          | Some new_end =>
              if new_end >? current_time then (Done tt, set_end_time new_end e1)
              else (Failed (Custom InvalidEndTime), e1)
          | None => (Done tt, e1)
          end
      end
  end.

(** [#[event] pub struct VestingRevokedEvent]. *)
Record VestingRevokedEvent : Type := mkVestingRevokedEvent {
  ev_employee : Pubkey;
  ev_company : Pubkey;
  ev_vested_amount : Z;
  ev_revoked_time : Z
}.

(** [revoke_vesting(ctx, employee_bump)], with [company] the address of
    the vesting account of the context: the schedule is cut down to what
    has vested and ends now; the event is emitted.
<<
      let vested_amount = calculate_vested_amount(&employee_account, current_time)?;
      employee_account.total_amount = vested_amount;
      employee_account.end_time = current_time;
      emit!(VestingRevokedEvent { employee: employee_account.beneficiary,
          company: vesting_account.key(), vested_amount, revoked_time: current_time });
      Ok(())
>> *)
Definition revoke_vesting (overflow_checks : bool) (company : Pubkey)
    (current_time : Z) (e : EmployeeAccount)
    : Outcome (EmployeeAccount * VestingRevokedEvent) :=
  let? vested := calculate_vested_amount overflow_checks e current_time in
  let e' := set_end_time current_time (set_total_amount vested e) in
  Done (e', {| ev_employee := beneficiary e';
               ev_company := company;
               ev_vested_amount := vested;
               ev_revoked_time := current_time |}).

(** ** The claim instruction with its account constraints

    [pub struct ClaimTokens]: the signer, the employee account presented
    (by its address, which the model identifies with the seeds it derives
    from), the vesting account with its address, the mint and the treasury
    presented.
<<
      #[account(mut,
          seeds = [b"employee_vesting", beneficiary.key().as_ref(),
                   vesting_account.key().as_ref()],
          bump = employee_account.bump,
          has_one = beneficiary, has_one = vesting_account)]
      pub employee_account: Account<'info, EmployeeAccount>,
      #[account(mut, seeds = [company_name.as_ref()], bump = vesting_account.bump,
          has_one = treasury_token_account, has_one = mint)]
      pub vesting_account: Account<'info, VestingAccount>,
>> *)
Record ClaimTokens : Type := mkClaimTokens {
  ct_beneficiary : Pubkey;
  ct_employee_address : Pubkey * Pubkey;
  ct_vesting_key : Pubkey;
  ct_vesting_account : VestingAccount;
  ct_mint : Pubkey;
  ct_treasury : Pubkey
}.

(** The constraints on the accounts of a claim: the employee address is the
    one derived from the signer and the vesting account, and the four
    [has_one] relations hold. The instruction argument [company_name] is
    taken to be the name stored in the vesting account presented; the
    re-derivation with the stored bumps and the constraints on the mint
    and on the beneficiary's token account are left out. These are
    necessary conditions for the handler to run, not sufficient ones: the
    properties below speak of what an accepted claim implies and of
    rejection. *)
Definition claim_constraints (ctx : ClaimTokens) (e : EmployeeAccount) : bool :=
  bool_decide (ct_employee_address ctx = (ct_beneficiary ctx, ct_vesting_key ctx))
  && N.eqb (beneficiary e) (ct_beneficiary ctx)
  && N.eqb (vesting_account e) (ct_vesting_key ctx)
  && N.eqb (treasury_token_account (ct_vesting_account ctx)) (ct_treasury ctx)
  && N.eqb (mint (ct_vesting_account ctx)) (ct_mint ctx).

(** An instruction either is rejected by the framework, because an account
    is missing or a constraint fails, or runs its handler. *)
Inductive Validated (A : Type) : Type :=
| Rejected
| Accepted (a : A).

Arguments Rejected {A}.
Arguments Accepted {A} a.

(** The claim as a transaction on the store of schedules and the token
    ledger: the state is committed only when the handler returns [Ok]. *)
Definition process_claim_tokens (overflow_checks : bool) {Tokens : Type}
    (transfer_checked : Tokens -> Z -> option Tokens)
    (store : Schedules) (l : Tokens) (ctx : ClaimTokens) (now : Z)
    : Validated (Result unit * Schedules * Tokens) :=
  match store !! ct_employee_address ctx with
  | None => Rejected
  | Some e =>
      if claim_constraints ctx e then
        match claim_tokens overflow_checks transfer_checked now (mkAccounts e l) with
        | (Ok _, s') =>
            Accepted (Ok tt,
                      <[ct_employee_address ctx := employee_account s']> store,
                      tokens s')
        | (Err f, _) => Accepted (Err f, store, l)
        end
      else Rejected
  end.

(** Alice claiming from her schedule under the company's vesting account,
    and Bob presenting Alice's schedule. *)
Definition alice_claims : ClaimTokens :=
  {| ct_beneficiary := 1%N; ct_employee_address := (1%N, 2%N);
     ct_vesting_key := 2%N; ct_vesting_account := acme;
     ct_mint := 8%N; ct_treasury := 9%N |}.

Definition bob_claims_alice : ClaimTokens :=
  {| ct_beneficiary := 3%N; ct_employee_address := (1%N, 2%N);
     ct_vesting_key := 2%N; ct_vesting_account := acme;
     ct_mint := 8%N; ct_treasury := 9%N |}.

(** ** Creation of a company's vesting account

    [pub struct CreateVestingAccount]: the signer, the vesting account and
    the treasury token account presented by their addresses, and the mint.
    Both accounts are created ([init]) at the addresses derived from the
    company name.
<<
      #[account(init, space = 8 + VestingAccount::INIT_SPACE, payer = signer,
          seeds = [company_name.as_ref()], bump)]
      pub vesting_account: Account<'info, VestingAccount>,
      pub mint: InterfaceAccount<'info, Mint>,
      #[account(init, token::mint = mint, token::authority = treasury_token_account,
          payer = signer, seeds = [b"vesting_treasury", company_name.as_bytes()], bump)]
      pub treasury_token_account: InterfaceAccount<'info, TokenAccount>,
>> *)
Record CreateVestingAccount : Type := mkCreateVestingAccount {
  cva_signer : Pubkey;
  cva_vesting_account : Pubkey;
  cva_mint : Pubkey;
  cva_treasury_token_account : Pubkey
}.

(** A token account as [init] creates it: its mint, its authority and an
    empty balance. *)
Record TokenAccount : Type := mkTokenAccount {
  token_mint : Pubkey;
  token_authority : Pubkey;
  token_amount : Z
}.

(** The accounts the instruction can see: the vesting accounts and the
    token accounts by address, and the addresses that hold a mint. *)
Record Registry : Type := mkRegistry {
  companies : gmap Pubkey VestingAccount;
  treasuries : gmap Pubkey TokenAccount;
  mints : gset Pubkey
}.

(** [b"vesting_treasury"]. *)
Definition vesting_treasury_seed : list Z :=
  [118; 101; 115; 116; 105; 110; 103; 95; 116; 114; 101; 97; 115; 117; 114; 121].

(** [create_vesting_account]: the handler, given the bumps the framework
    found for the two derived addresses.
<<
      *ctx.accounts.vesting_account = VestingAccount {
          owner: ctx.accounts.signer.key(),
          mint: ctx.accounts.mint.key(),
          treasury_token_account: ctx.accounts.treasury_token_account.key(),
          company_name,
          treasury_bump: ctx.bumps.treasury_token_account,
          bump: ctx.bumps.vesting_account,
      };
      Ok(())
>> *)
Definition create_vesting_account (ctx : CreateVestingAccount)
    (bump_vesting_account bump_treasury_token_account : Z)
    (company_name : list Z) : Result VestingAccount :=
  Ok {| owner := cva_signer ctx;
        mint := cva_mint ctx;
        treasury_token_account := cva_treasury_token_account ctx;
        company_name := company_name;
        treasury_bump := bump_treasury_token_account;
        vesting_bump := bump_vesting_account |}.

(** The instruction as the framework runs it.
    [find_program_address seeds] is the derivation of an address and its
    canonical bump from seeds, for this program; it has no result when the
    seeds admit none. The addresses presented must be the derived ones and
    free, and the mint must exist. *)
Definition process_create_vesting_account
    (find_program_address : list (list Z) -> option (Pubkey * Z))
    (reg : Registry) (ctx : CreateVestingAccount) (company_name : list Z)
    : Validated Registry :=
  match find_program_address [company_name],
        find_program_address [vesting_treasury_seed; company_name] with
  | Some (vesting_address, vesting_bump), Some (treasury_address, treasury_bump) =>
      if N.eqb vesting_address (cva_vesting_account ctx)
         && N.eqb treasury_address (cva_treasury_token_account ctx)
         && bool_decide (cva_mint ctx ∈ mints reg)
         && bool_decide (companies reg !! vesting_address = None)
         && bool_decide (treasuries reg !! treasury_address = None)
      then
        match create_vesting_account ctx vesting_bump treasury_bump company_name with
        | Ok account =>
            Accepted
              {| companies := <[vesting_address := account]> (companies reg);
                 treasuries :=
                   <[treasury_address :=
                       {| token_mint := cva_mint ctx;
                          token_authority := treasury_address;
                          token_amount := 0 |}]> (treasuries reg);
                 mints := mints reg |}
        | Err _ => Rejected
        end
      else Rejected
  | _, _ => Rejected
  end.

(** The signer seeds [claim_tokens] builds for the transfer out of the
    treasury:
<<
      let signer_seeds: &[&[&[u8]]] = &[&[
          b"vesting_treasury",
          ctx.accounts.vesting_account.company_name.as_ref(),
          &[ctx.accounts.vesting_account.treasury_bump],
      ]];
>> *)
Definition signer_seeds (account : VestingAccount) : list (list Z) :=
  [vesting_treasury_seed; company_name account; [treasury_bump account]].

(** A derivation used in the examples: the address is read off the first
    byte of the last seed, the bump is 255 for a company and 254 for a
    treasury. *)
Definition toy_find_program_address (seeds : list (list Z)) : option (Pubkey * Z) :=
  match seeds with
  | [name] => Some (Z.to_N (hd 0 name), 255)
  | [_; name] => Some (Z.to_N (1000 + hd 0 name), 254)
  | _ => None
  end.

Definition register_acme : CreateVestingAccount :=
  {| cva_signer := 7%N; cva_vesting_account := 65%N; cva_mint := 8%N;
     cva_treasury_token_account := 1065%N |}.

Definition empty_registry : Registry :=
  {| companies := ∅; treasuries := ∅; mints := {[ 8%N ]} |}.

Definition acme_created : VestingAccount :=
  {| owner := 7%N; mint := 8%N; treasury_token_account := 1065%N;
     company_name := [65; 99; 109; 101]; treasury_bump := 254;
     vesting_bump := 255 |}.

Definition acme_registry : Registry :=
  {| companies := <[65%N := acme_created]> ∅;
     treasuries := <[1065%N := {| token_mint := 8%N; token_authority := 1065%N;
                                  token_amount := 0 |}]> ∅;
     mints := {[ 8%N ]} |}.

(** ** Facts about the 64-bit operations *)

Lemma in_range_iff z :
  I64.in_range z = true <-> -9223372036854775808 <= z <= 9223372036854775807.
Proof.
  unfold I64.in_range, I64.MIN, I64.MAX.
  rewrite andb_true_iff, !Z.leb_le. tauto.
Qed.

Lemma saturating_sub_exact a b :
  I64.in_range (a - b) = true -> I64.saturating_sub a b = a - b.
Proof.
  rewrite in_range_iff. unfold I64.saturating_sub, I64.MIN, I64.MAX. lia.
Qed.

Lemma saturating_sub_sign a b :
  (b <= a -> 0 <= I64.saturating_sub a b) /\
  (a < b -> I64.saturating_sub a b < 0) /\
  (b < a -> 0 < I64.saturating_sub a b).
Proof. unfold I64.saturating_sub, I64.MIN, I64.MAX. lia. Qed.

Lemma i64_mul_exact oc a b :
  I64.in_range (a * b) = true -> i64_mul oc a b = Ok (a * b).
Proof. intros H. unfold i64_mul. now rewrite H. Qed.

Lemma i64_add_exact oc a b :
  I64.in_range (a + b) = true -> i64_add oc a b = Ok (a + b).
Proof. intros H. unfold i64_add. now rewrite H. Qed.

Lemma i64_div_positive a b : 0 < b -> i64_div a b = Ok (Z.quot a b).
Proof.
  intros H. unfold i64_div.
  destruct (Z.eqb_spec b 0); [lia |].
  destruct (Z.eqb_spec b (-1)); [lia |].
  now rewrite andb_false_r.
Qed.

(** From the end of the schedule on, the whole allocation is vested. *)
Lemma vested_amount_after_end oc e now :
  end_time e <= now -> vested_amount oc e now = Ok (total_amount e).
Proof.
  intros H. unfold vested_amount.
  destruct (Z.geb_spec now (end_time e)); [reflexivity | lia].
Qed.

(** Before the end, with a product that fits and a duration that is
    positive and representable, the calculation is the exact quotient,
    truncated toward zero. *)
Lemma vested_amount_linear oc e now :
  now < end_time e ->
  start_time e < end_time e ->
  I64.in_range (end_time e - start_time e) = true ->
  I64.in_range (now - start_time e) = true ->
  I64.in_range (total_amount e * (now - start_time e)) = true ->
  vested_amount oc e now =
    Ok (Z.quot (total_amount e * (now - start_time e)) (end_time e - start_time e)).
Proof.
  intros Hend Hdur Hd He Hp. unfold vested_amount.
  destruct (Z.geb_spec now (end_time e)); [lia |]. cbv zeta.
  rewrite !saturating_sub_exact by assumption.
  rewrite i64_mul_exact by assumption. simpl.
  apply i64_div_positive. lia.
Qed.

(** Under overflow checks a product that does not fit aborts the
    calculation. *)
Lemma vested_amount_overflow_aborts e now :
  now < end_time e ->
  I64.in_range (total_amount e * I64.saturating_sub now (start_time e)) = false ->
  vested_amount true e now = Err (Abort MultiplyWithOverflow).
Proof.
  intros Hend Hp. unfold vested_amount. cbv zeta.
  destruct (Z.geb_spec now (end_time e)); [lia |].
  unfold i64_mul. rewrite Hp. reflexivity.
Qed.

(** A zero allocation vests nothing, whatever the times. *)
Lemma vested_amount_zero_total oc e now :
  total_amount e = 0 -> start_time e < end_time e ->
  vested_amount oc e now = Ok 0.
Proof.
  intros Ht Hdur. unfold vested_amount. cbv zeta. rewrite Ht.
  destruct (Z.geb_spec now (end_time e)); [reflexivity |].
  rewrite i64_mul_exact by reflexivity. simpl.
  rewrite i64_div_positive; [reflexivity |].
  apply saturating_sub_sign. lia.
Qed.

(** ** The claim handler, step by step *)

(** The handler written out as a decision tree over its accounts. *)
Lemma claim_tokens_unfold oc (Tokens : Type) (tc : Tokens -> Z -> option Tokens)
    now (s : Accounts Tokens) :
  claim_tokens oc tc now s =
    let e := employee_account s in
    if now <? cliff_time e then (Err (ProgramError ClaimNotAvailableYet), s)
    else
      match claimable_amount oc e now with
      | Err f => (Err f, s)
      | Ok claimable =>
          if claimable =? 0 then (Err (ProgramError NothingToClaim), s)
          else
            match tc (tokens s) (I64.as_u64 claimable) with
            | None => (Err TransferFailed, s)
            | Some l =>
                match i64_add oc (total_withdrawn e) claimable with
                | Err f => (Err f, mkAccounts e l)
                | Ok w => (Ok tt, mkAccounts (set_total_withdrawn w e) l)
                end
            end
      end.
Proof.
  unfold claim_tokens, bind, read_employee, throw, lift, invoke_transfer,
    write_employee, ret.
  cbv zeta.
  destruct (now <? cliff_time (employee_account s)); [reflexivity |].
  destruct (claimable_amount oc (employee_account s) now) as [c | f];
    [| reflexivity].
  destruct (c =? 0); [reflexivity |].
  destruct (tc (tokens s) (I64.as_u64 c)) as [l |]; [| reflexivity].
  simpl.
  destruct (i64_add oc (total_withdrawn (employee_account s)) c); reflexivity.
Qed.

(** A failed claim commits nothing. *)
Lemma process_claim_failed oc (Tokens : Type) (tc : Tokens -> Z -> option Tokens)
    now (s s' : Accounts Tokens) f :
  claim_tokens oc tc now s = (Err f, s') -> process_claim oc tc now s = s.
Proof. intros H. unfold process_claim. now rewrite H. Qed.

Lemma claim_tokens_before_cliff oc (Tokens : Type)
    (tc : Tokens -> Z -> option Tokens) now (s : Accounts Tokens) :
  now < cliff_time (employee_account s) ->
  claim_tokens oc tc now s = (Err (ProgramError ClaimNotAvailableYet), s).
Proof.
  intros Hcliff. rewrite claim_tokens_unfold. cbv zeta.
  destruct (Z.ltb_spec now (cliff_time (employee_account s)));
    [reflexivity | lia].
Qed.

Lemma claim_tokens_zero_claimable oc (Tokens : Type)
    (tc : Tokens -> Z -> option Tokens) now (s : Accounts Tokens) :
  cliff_time (employee_account s) <= now ->
  claimable_amount oc (employee_account s) now = Ok 0 ->
  claim_tokens oc tc now s = (Err (ProgramError NothingToClaim), s).
Proof.
  intros Hcliff Hzero. rewrite claim_tokens_unfold. cbv zeta.
  destruct (Z.ltb_spec now (cliff_time (employee_account s))); [lia |].
  rewrite Hzero. reflexivity.
Qed.

(** ** The vesting calculation against the reference *)

(** C1 (amended). For every schedule with a non-negative total, a start
    before its end and a duration that fits in 64 bits, and every [now] at
    or after both the cliff and the start whose product
    [total_amount * (now - start_time)] fits in 64 bits, the vested amount
    [claim_tokens] computes is the reference value: the total from the end
    on, and the floor of the linear share before it. Before the cliff,
    where the reference value is zero, [claim_tokens] computes no amount
    and returns [ClaimNotAvailableYet]. On the four-year schedule the
    vested amount is 12000 at one year, 18000 at eighteen months and 48000
    from four years on. *)
Theorem vested_amount_matches_reference :
  (forall oc e now,
      0 <= total_amount e ->
      start_time e < end_time e ->
      end_time e - start_time e <= I64.MAX ->
      cliff_time e <= now ->
      start_time e <= now ->
      (now < end_time e -> total_amount e * (now - start_time e) <= I64.MAX) ->
      vested_amount oc e now = Ok (vestedAmount_spec e now)) /\
  (forall oc (Tokens : Type) (tc : Tokens -> Z -> option Tokens) now
          (s : Accounts Tokens),
      now < cliff_time (employee_account s) ->
      vestedAmount_spec (employee_account s) now = 0 /\
      claim_tokens oc tc now s = (Err (ProgramError ClaimNotAvailableYet), s)) /\
  (forall oc, vested_amount oc alice 31536000 = Ok 12000) /\
  (forall oc, vested_amount oc alice 47304000 = Ok 18000) /\
  (forall oc now, 126144000 <= now -> vested_amount oc alice now = Ok 48000).
Proof.
  split; [| split; [| split; [| split]]].
  - intros oc e now Htot Hdur Hfit Hcliff Hstart Hprod.
    unfold vestedAmount_spec.
    destruct (Z.ltb_spec now (cliff_time e)); [lia |].
    destruct (Z.geb_spec now (end_time e)) as [Hge | Hlt].
    + apply vested_amount_after_end. lia.
    + specialize (Hprod ltac:(lia)). unfold I64.MAX in *.
      destruct (Z.eq_dec (total_amount e) 0) as [Hz | Hnz].
      * rewrite vested_amount_zero_total by assumption.
        rewrite Hz, Z.mul_0_l, Z.div_0_l by lia. reflexivity.
      * assert (0 <= total_amount e * (now - start_time e)) by nia.
        rewrite vested_amount_linear;
          try (apply in_range_iff); try lia; try nia.
        rewrite Z.quot_div_nonneg by lia. reflexivity.
  - intros oc Tokens tc now s Hcliff. split.
    + unfold vestedAmount_spec.
      destruct (Z.ltb_spec now (cliff_time (employee_account s)));
        [reflexivity | lia].
    + now apply claim_tokens_before_cliff.
  - intros []; reflexivity.
  - intros []; reflexivity.
  - intros oc now H. now rewrite vested_amount_after_end.
Qed.

Lemma vested_amount_matches_reference_witness :
  vested_amount true alice 63072000 = Ok (vestedAmount_spec alice 63072000) /\
  vested_amount false alice 200000000 = Ok 48000.
Proof.
  split.
  - apply (proj1 vested_amount_matches_reference true alice 63072000);
      simpl; unfold I64.MAX; lia.
  - apply (proj2 (proj2 (proj2 (proj2 vested_amount_matches_reference)))
             false 200000000).
    lia.
Defined.

(** C1 as stated fails: on [2^62] tokens over four seconds, two seconds in,
    the reference value is [2^61], while the 64-bit product overflows: the
    calculation aborts under overflow checks and yields [-2^61] without
    them. *)
Lemma vested_amount_differs_from_reference :
  well_formed wide_schedule /\
  vestedAmount_spec wide_schedule 2 = 2305843009213693952 /\
  vested_amount true wide_schedule 2 = Err (Abort MultiplyWithOverflow) /\
  vested_amount false wide_schedule 2 = Ok (-2305843009213693952).
Proof. repeat split; reflexivity. Qed.

(** C3 (amended). The product [total_amount * (now - start_time)] is formed
    in 64 bits. For a schedule whose start is before its end and a [now]
    before the end, whenever the two differences and the product fit in 64
    bits the vested amount is the exact quotient truncated toward zero,
    which is the floor when the total is non-negative and [now] is not
    before the start. *)
Theorem vested_amount_exact_when_product_fits oc e now :
  now < end_time e ->
  start_time e < end_time e ->
  I64.in_range (end_time e - start_time e) = true ->
  I64.in_range (now - start_time e) = true ->
  I64.in_range (total_amount e * (now - start_time e)) = true ->
  vested_amount oc e now =
    Ok (Z.quot (total_amount e * (now - start_time e)) (end_time e - start_time e)) /\
  (0 <= total_amount e -> start_time e <= now ->
   vested_amount oc e now =
     Ok ((total_amount e * (now - start_time e)) / (end_time e - start_time e))).
Proof.
  intros Hend Hdur Hd He Hp. split.
  - now apply vested_amount_linear.
  - intros Htot Hstart. rewrite vested_amount_linear by assumption.
    rewrite Z.quot_div_nonneg by nia. reflexivity.
Qed.

Lemma vested_amount_exact_when_product_fits_witness :
  vested_amount true alice 47304000 = Ok (Z.quot (48000 * 47304000) 126144000).
Proof.
  apply (proj1 (vested_amount_exact_when_product_fits true alice 47304000
                  ltac:(simpl; lia) ltac:(simpl; lia)
                  ltac:(reflexivity) ltac:(reflexivity) ltac:(reflexivity))).
Defined.

(** C3 as stated fails: with [total_amount = 2^62], [start_time = 0],
    [end_time = 4] and [now = 2] the exact value is [2^61], but the product
    [2^63] does not fit: the multiplication aborts under overflow checks
    and wraps to [-2^63] without them. *)
Lemma product_overflows_in_64_bits :
  cliff_time wide_schedule <= 2 < end_time wide_schedule /\
  (total_amount wide_schedule * (2 - start_time wide_schedule))
    / (end_time wide_schedule - start_time wide_schedule) = 2305843009213693952 /\
  i64_mul true (total_amount wide_schedule) 2 = Err (Abort MultiplyWithOverflow) /\
  i64_mul false (total_amount wide_schedule) 2 = Ok (-9223372036854775808) /\
  vested_amount true wide_schedule 2 <> Ok 2305843009213693952 /\
  vested_amount false wide_schedule 2 <> Ok 2305843009213693952.
Proof. repeat split; try reflexivity; try discriminate; simpl; lia. Qed.

(** ** The guards of the claim handler *)

(** C6. A claim before the cliff returns [ClaimNotAvailableYet]; a claim at
    or after the cliff whose claimable amount is zero returns
    [NothingToClaim]. The cliff is checked first, and in both cases the
    handler leaves every account as it found it. *)
Theorem claim_tokens_guards oc (Tokens : Type) (tc : Tokens -> Z -> option Tokens)
    now (s : Accounts Tokens) :
  (now < cliff_time (employee_account s) ->
   claim_tokens oc tc now s = (Err (ProgramError ClaimNotAvailableYet), s) /\
   process_claim oc tc now s = s) /\
  (cliff_time (employee_account s) <= now ->
   claimable_amount oc (employee_account s) now = Ok 0 ->
   claim_tokens oc tc now s = (Err (ProgramError NothingToClaim), s) /\
   process_claim oc tc now s = s).
Proof.
  split.
  - intros Hcliff.
    pose proof (claim_tokens_before_cliff oc Tokens tc now s Hcliff) as E.
    split; [exact E | exact (process_claim_failed _ _ _ _ _ _ _ E)].
  - intros Hcliff Hzero.
    pose proof (claim_tokens_zero_claimable oc Tokens tc now s Hcliff Hzero) as E.
    split; [exact E | exact (process_claim_failed _ _ _ _ _ _ _ E)].
Qed.

Lemma claim_tokens_guards_witness :
  claim_tokens true spl_transfer_checked 15768000
      (mkAccounts alice (mkTokenLedger 48000 0))
    = (Err (ProgramError ClaimNotAvailableYet),
       mkAccounts alice (mkTokenLedger 48000 0)) /\
  claim_tokens true spl_transfer_checked 31536000
      (mkAccounts (set_total_withdrawn 12000 alice) (mkTokenLedger 36000 12000))
    = (Err (ProgramError NothingToClaim),
       mkAccounts (set_total_withdrawn 12000 alice) (mkTokenLedger 36000 12000)).
Proof.
  split.
  - apply (proj1 (claim_tokens_guards true TokenLedger spl_transfer_checked
                    15768000 (mkAccounts alice (mkTokenLedger 48000 0)))).
    simpl. lia.
  - apply (proj2 (claim_tokens_guards true TokenLedger spl_transfer_checked
                    31536000
                    (mkAccounts (set_total_withdrawn 12000 alice)
                                (mkTokenLedger 36000 12000)))).
    + simpl. lia.
    + reflexivity.
Defined.

(** ** Degenerate schedules *)

(** With a zero duration every claim between the cliff and the end aborts:
    the divisor is zero, and no error code of the program is returned. *)
Lemma zero_duration_aborts oc (Tokens : Type) (tc : Tokens -> Z -> option Tokens)
    now (s : Accounts Tokens) :
  start_time (employee_account s) = end_time (employee_account s) ->
  cliff_time (employee_account s) <= now < end_time (employee_account s) ->
  exists p, claim_tokens oc tc now s = (Err (Abort p), s).
Proof.
  intros Heq [Hcliff Hend]. rewrite claim_tokens_unfold. cbv zeta.
  destruct (Z.ltb_spec now (cliff_time (employee_account s))); [lia |].
  unfold claimable_amount, vested_amount. cbv zeta.
  destruct (Z.geb_spec now (end_time (employee_account s))); [lia |].
  replace (I64.saturating_sub (end_time (employee_account s))
             (start_time (employee_account s))) with 0
    by (rewrite Heq; unfold I64.saturating_sub; rewrite Z.sub_diag; reflexivity).
  unfold i64_mul.
  destruct (I64.in_range _); [eexists; reflexivity |].
  destruct oc; eexists; reflexivity.
Qed.

(** C2 (the code departs from it). The schedule with
    [start_time = end_time = 100] and [cliff_time = 0], claimed at
    [now = 50]: the handler divides by zero and aborts; it returns no
    error code. *)
Theorem zero_duration_divides_by_zero :
  start_time zero_duration = end_time zero_duration /\
  cliff_time zero_duration <= 50 < end_time zero_duration /\
  claim_tokens true spl_transfer_checked 50
      (mkAccounts zero_duration (mkTokenLedger 1000 0))
    = (Err (Abort DivideByZero), mkAccounts zero_duration (mkTokenLedger 1000 0)) /\
  claim_tokens false spl_transfer_checked 50
      (mkAccounts zero_duration (mkTokenLedger 1000 0))
    = (Err (Abort DivideByZero), mkAccounts zero_duration (mkTokenLedger 1000 0)).
Proof. repeat split; try reflexivity; simpl; lia. Qed.

(** C4 (the code departs from it). [saturating_sub] on [i64] clamps at the
    ends of the 64-bit range, not at zero. On the schedule with
    [cliff_time = 0], [start_time = 100], [end_time = 200] and 1000 tokens,
    at [now = 50], the vested amount is [-500] and so is the claimable
    amount; the handler passes it on as the unsigned amount [2^64 - 500].
    With 18000 withdrawn and 12000 vested the claimable amount is
    [-6000]. *)
Theorem claimable_amount_negative :
  vested_amount true early_cliff 50 = Ok (-500) /\
  claimable_amount true early_cliff 50 = Ok (-500) /\
  claimable_amount false early_cliff 50 = Ok (-500) /\
  claim_tokens true spl_transfer_checked 50
      (mkAccounts early_cliff (mkTokenLedger 18446744073709551615 0))
    = (Ok tt, mkAccounts (set_total_withdrawn (-500) early_cliff)
                         (mkTokenLedger 499 18446744073709551116)) /\
  claimable_amount true (set_total_withdrawn 18000 alice) 31536000 = Ok (-6000).
Proof. repeat split; reflexivity. Qed.

(** ** Claims between an early cliff and the start *)

Lemma as_u64_negative c :
  I64.MIN <= c < 0 -> I64.as_u64 c = I64.modulus + c.
Proof.
  unfold I64.as_u64, I64.MIN, I64.modulus. intros H.
  symmetry. apply Z.mod_unique with (q := -1); lia.
Qed.

(** Before the start the elapsed time is negative, and the vested amount
    is minus the truncated share of the time still to run. *)
Lemma vested_amount_before_start oc e now :
  0 < total_amount e ->
  now < start_time e < end_time e ->
  I64.in_range (end_time e - start_time e) = true ->
  I64.in_range (now - start_time e) = true ->
  I64.in_range (total_amount e * (now - start_time e)) = true ->
  vested_amount oc e now =
    Ok (- ((total_amount e * (start_time e - now)) / (end_time e - start_time e))) /\
  0 <= (total_amount e * (start_time e - now)) / (end_time e - start_time e)
    <= - I64.MIN.
Proof.
  intros Htot [Hnow Hdur] Hd He Hp.
  rewrite vested_amount_linear by (assumption || lia).
  replace (total_amount e * (now - start_time e))
    with (- (total_amount e * (start_time e - now))) in * by ring.
  rewrite Z.quot_opp_l by lia.
  rewrite Z.quot_div_nonneg by nia.
  split; [reflexivity |].
  apply in_range_iff in Hp. unfold I64.MIN.
  split.
  - apply Z.div_pos; nia.
  - apply Z.div_le_upper_bound; nia.
Qed.

(** C10 (amended). For a schedule with the cliff before the start, a
    positive total, the start before the end and nothing withdrawn, and a
    [now] from the cliff up to but not including the start, with the two
    differences and the product fitting in 64 bits: the claimable amount is
    [- floor (total_amount * (start_time - now) / (end_time - start_time))],
    never positive. When [total_amount * (start_time - now)] reaches the
    duration it is strictly negative, the zero check does not fire, and the
    handler hands [2^64 - floor (...)] to the transfer and, if that
    succeeds, stores the negative amount as [total_withdrawn]. When the
    product is below the duration the quotient truncates to zero and the
    claim returns [NothingToClaim]. *)
Theorem claim_between_cliff_and_start oc (Tokens : Type)
    (tc : Tokens -> Z -> option Tokens) now (s : Accounts Tokens) :
  cliff_time (employee_account s) < start_time (employee_account s) ->
  0 < total_amount (employee_account s) ->
  start_time (employee_account s) < end_time (employee_account s) ->
  total_withdrawn (employee_account s) = 0 ->
  cliff_time (employee_account s) <= now < start_time (employee_account s) ->
  I64.in_range (end_time (employee_account s) - start_time (employee_account s)) = true ->
  I64.in_range (now - start_time (employee_account s)) = true ->
  I64.in_range (total_amount (employee_account s)
                * (now - start_time (employee_account s))) = true ->
  let e := employee_account s in
  let owed := (total_amount e * (start_time e - now)) / (end_time e - start_time e) in
  claimable_amount oc e now = Ok (- owed) /\
  0 <= owed /\
  (end_time e - start_time e <= total_amount e * (start_time e - now) ->
   0 < owed /\
   claim_tokens oc tc now s =
     match tc (tokens s) (I64.modulus - owed) with
     | None => (Err TransferFailed, s)
     | Some l => (Ok tt, mkAccounts (set_total_withdrawn (- owed) e) l)
     end) /\
  (total_amount e * (start_time e - now) < end_time e - start_time e ->
   owed = 0 /\
   claim_tokens oc tc now s = (Err (ProgramError NothingToClaim), s)).
Proof.
  intros Hcs Htot Hdur Hw [Hcliff Hnow] Hd He Hp. cbv zeta.
  set (e := employee_account s) in *.
  set (owed := (total_amount e * (start_time e - now))
               / (end_time e - start_time e)).
  destruct (vested_amount_before_start oc e now Htot (conj Hnow Hdur) Hd He Hp)
    as [Hv [Hlo Hhi]].
  fold owed in Hv, Hlo, Hhi. unfold I64.MIN in Hhi.
  assert (Hc : claimable_amount oc e now = Ok (- owed)).
  { unfold claimable_amount. rewrite Hv. simpl. rewrite Hw.
    rewrite saturating_sub_exact by (apply in_range_iff; lia).
    f_equal. lia. }
  split; [exact Hc |]. split; [exact Hlo |]. split.
  - intros Hreach.
    assert (Hpos : 0 < owed) by (apply Z.div_str_pos; lia).
    split; [exact Hpos |].
    rewrite claim_tokens_unfold. cbv zeta. fold e.
    destruct (Z.ltb_spec now (cliff_time e)); [lia |].
    rewrite Hc.
    destruct (Z.eqb_spec (- owed) 0); [lia |].
    rewrite as_u64_negative by (unfold I64.MIN; lia).
    replace (I64.modulus + - owed) with (I64.modulus - owed) by ring.
    destruct (tc (tokens s) (I64.modulus - owed)); [| reflexivity].
    rewrite Hw, i64_add_exact by (apply in_range_iff; lia).
    reflexivity.
  - intros Hbelow.
    assert (Hz : owed = 0) by (apply Z.div_small; nia).
    split; [exact Hz |].
    apply claim_tokens_zero_claimable; fold e; [lia |].
    rewrite Hc, Hz. reflexivity.
Qed.

Lemma claim_between_cliff_and_start_witness :
  claimable_amount true early_cliff 50 = Ok (-500) /\
  claim_tokens true spl_transfer_checked 50
      (mkAccounts early_cliff (mkTokenLedger 1000000 0))
    = (Err TransferFailed, mkAccounts early_cliff (mkTokenLedger 1000000 0)).
Proof.
  pose proof (claim_between_cliff_and_start true TokenLedger spl_transfer_checked
                50 (mkAccounts early_cliff (mkTokenLedger 1000000 0))
                ltac:(simpl; lia) ltac:(simpl; lia) ltac:(simpl; lia)
                ltac:(reflexivity) ltac:(simpl; lia)
                ltac:(reflexivity) ltac:(reflexivity) ltac:(reflexivity))
    as [Hc [_ [Hneg _]]].
  split; [exact Hc |].
  apply (Hneg ltac:(simpl; lia)).
Defined.

(** C10 as stated fails: with one token, [start_time = 10], [end_time = 20],
    [cliff_time = 0] and nothing withdrawn, at [now = 9] the product is [-1],
    the quotient truncates to zero, the claimable amount is zero and the
    claim returns [NothingToClaim]. *)
Lemma claimable_before_start_can_be_zero :
  cliff_time early_cliff_one_token < start_time early_cliff_one_token /\
  0 < total_amount early_cliff_one_token /\
  start_time early_cliff_one_token < end_time early_cliff_one_token /\
  total_withdrawn early_cliff_one_token = 0 /\
  cliff_time early_cliff_one_token <= 9 < start_time early_cliff_one_token /\
  claimable_amount true early_cliff_one_token 9 = Ok 0 /\
  claimable_amount false early_cliff_one_token 9 = Ok 0 /\
  claim_tokens true spl_transfer_checked 9
      (mkAccounts early_cliff_one_token (mkTokenLedger 1000 0))
    = (Err (ProgramError NothingToClaim),
       mkAccounts early_cliff_one_token (mkTokenLedger 1000 0)).
Proof. repeat split; try reflexivity; simpl; lia. Qed.

(** ** Monotonicity of the vested amount *)

(** On a sound schedule, from the start on, the calculation succeeds and
    yields the linear share. *)
Lemma vested_amount_sound oc e now :
  sound_schedule e -> start_time e <= now ->
  vested_amount oc e now = Ok (linear_share e now).
Proof.
  intros (Htot & Hdur & Hfit) Hstart. unfold linear_share, I64.MAX in *.
  destruct (Z.geb_spec now (end_time e)) as [Hge | Hlt].
  - apply vested_amount_after_end. lia.
  - destruct (Z.eq_dec (total_amount e) 0) as [Hz | Hnz].
    + rewrite vested_amount_zero_total by assumption.
      rewrite Hz, Z.mul_0_l, Z.div_0_l by lia. reflexivity.
    + assert (0 <= total_amount e * (now - start_time e)) by nia.
      rewrite vested_amount_linear;
        try (apply in_range_iff); try lia; try nia.
      rewrite Z.quot_div_nonneg by lia. reflexivity.
Qed.

Lemma linear_share_bounds e now :
  0 <= total_amount e -> start_time e < end_time e -> start_time e <= now ->
  0 <= linear_share e now <= total_amount e.
Proof.
  intros Htot Hdur Hstart. unfold linear_share.
  destruct (Z.geb_spec now (end_time e)); [lia |].
  split.
  - apply Z.div_pos; nia.
  - apply Z.div_le_upper_bound; nia.
Qed.

Lemma linear_share_monotone e now1 now2 :
  0 <= total_amount e -> start_time e < end_time e ->
  start_time e <= now1 <= now2 ->
  linear_share e now1 <= linear_share e now2.
Proof.
  intros Htot Hdur [Hstart Hle].
  pose proof (linear_share_bounds e now1 Htot Hdur Hstart) as Hb.
  unfold linear_share in *.
  destruct (Z.geb_spec now2 (end_time e)).
  - destruct (Z.geb_spec now1 (end_time e)); lia.
  - destruct (Z.geb_spec now1 (end_time e)); [lia |].
    apply Z.div_le_mono; nia.
Qed.

(** C8 (amended). On a schedule with a non-negative total, a start before
    the end and a total that can be multiplied by the duration within 64
    bits, the vested amount [claim_tokens] computes is non-decreasing in
    [now] from the start on and stays between zero and the total. For
    every schedule it is the total from the end on, and before the cliff
    no amount is computed: the claim returns [ClaimNotAvailableYet]. *)
Theorem vested_amount_nondecreasing :
  (forall oc e now1 now2,
      sound_schedule e ->
      start_time e <= now1 <= now2 ->
      exists v1 v2,
        vested_amount oc e now1 = Ok v1 /\
        vested_amount oc e now2 = Ok v2 /\
        0 <= v1 <= v2 /\ v2 <= total_amount e) /\
  (forall oc e now,
      end_time e <= now -> vested_amount oc e now = Ok (total_amount e)) /\
  (forall oc (Tokens : Type) (tc : Tokens -> Z -> option Tokens) now
          (s : Accounts Tokens),
      now < cliff_time (employee_account s) ->
      claim_tokens oc tc now s = (Err (ProgramError ClaimNotAvailableYet), s)).
Proof.
  split; [| split].
  - intros oc e now1 now2 Hs [H1 H2].
    exists (linear_share e now1), (linear_share e now2).
    pose proof Hs as (Htot & Hdur & _).
    rewrite !vested_amount_sound by (assumption || lia).
    pose proof (linear_share_bounds e now1 Htot Hdur H1).
    pose proof (linear_share_bounds e now2 Htot Hdur ltac:(lia)).
    pose proof (linear_share_monotone e now1 now2 Htot Hdur (conj H1 H2)).
    repeat split; lia.
  - intros oc e now H. now apply vested_amount_after_end.
  - intros oc Tokens tc now s H. now apply claim_tokens_before_cliff.
Qed.

Lemma vested_amount_nondecreasing_witness :
  exists v1 v2,
    vested_amount true alice 31536000 = Ok v1 /\
    vested_amount true alice 47304000 = Ok v2 /\
    0 <= v1 <= v2 /\ v2 <= total_amount alice.
Proof.
  apply (proj1 vested_amount_nondecreasing true alice 31536000 47304000).
  - unfold sound_schedule, I64.MAX. simpl. lia.
  - simpl. lia.
Defined.

(** C8 as stated fails: the schedule with [total_amount = -10] over ten
    seconds vests 0 at [now = 0] and [-5] at [now = 5]. *)
Lemma vested_amount_can_decrease :
  well_formed negative_total /\
  vested_amount true negative_total 0 = Ok 0 /\
  vested_amount true negative_total 5 = Ok (-5) /\
  vested_amount false negative_total 0 = Ok 0 /\
  vested_amount false negative_total 5 = Ok (-5).
Proof. repeat split; reflexivity. Qed.

(** ** Creation of a schedule *)

(** C9 (amended). [create_employee_vesting] does not look at
    [total_amount]. The handler returns [Ok] for every value and stores it
    as it comes, with nothing withdrawn. Whether the instruction succeeds,
    and with which error it fails, is the same for every two values of
    [total_amount]; and whenever it succeeds, for a zero or a negative
    [total_amount] as for any other, the record it has created carries
    that [total_amount] and [total_withdrawn = 0]. *)
Theorem create_employee_vesting_ignores_total_amount
    (store : Schedules) (ctx : CreateEmployeeAccount)
    (start_t end_t cliff_t total total' : Z) :
  (exists e,
      create_employee_vesting ctx start_t end_t total cliff_t = Ok e /\
      total_amount e = total /\
      total_withdrawn e = 0 /\
      start_time e = start_t /\ end_time e = end_t /\ cliff_time e = cliff_t) /\
  ((exists s, process_create_employee_vesting store ctx start_t end_t total cliff_t
              = Ok s) <->
   (exists s, process_create_employee_vesting store ctx start_t end_t total' cliff_t
              = Ok s)) /\
  (forall f,
      process_create_employee_vesting store ctx start_t end_t total cliff_t = Err f <->
      process_create_employee_vesting store ctx start_t end_t total' cliff_t = Err f) /\
  (forall store',
      process_create_employee_vesting store ctx start_t end_t total cliff_t = Ok store' ->
      exists e,
        store' !! (ctx_beneficiary ctx, ctx_vesting_key ctx) = Some e /\
        total_amount e = total /\
        total_withdrawn e = 0).
Proof.
  split; [| split; [| split]].
  - eexists. split; [reflexivity |]. repeat split; reflexivity.
  - unfold process_create_employee_vesting.
    destruct (negb _); [split; intros [? [=]] |].
    destruct (store !! _); [split; intros [? [=]] |].
    simpl. split; intros _; eexists; reflexivity.
  - intros f. unfold process_create_employee_vesting.
    destruct (negb _); [reflexivity |].
    destruct (store !! _); [reflexivity |].
    simpl. split; discriminate.
  - intros store'. unfold process_create_employee_vesting.
    destruct (negb _); [discriminate |].
    destruct (store !! _); [discriminate |].
    simpl. intros [= <-]. eexists. split; [apply lookup_insert_eq |].
    split; reflexivity.
Qed.

Lemma create_employee_vesting_ignores_total_amount_witness :
  exists e,
    (<[(1%N, 2%N) := mkEmployeeAccount 1%N 0 10 (-5) 0 0 2%N 255]> ∅ : Schedules)
      !! (ctx_beneficiary register_alice, ctx_vesting_key register_alice) = Some e /\
    total_amount e = -5 /\
    total_withdrawn e = 0.
Proof.
  apply (proj2 (proj2 (proj2
           (create_employee_vesting_ignores_total_amount
              ∅ register_alice 0 10 0 (-5) 48000)))).
  reflexivity.
Defined.

(** C9 as stated fails: with [total_amount = 0] and with
    [total_amount = -5] the instruction returns [Ok] and the record is in
    the store. *)
Lemma create_employee_vesting_stores_nonpositive_total :
  (exists store,
      process_create_employee_vesting ∅ register_alice 0 10 0 0 = Ok store /\
      total_amount <$> store !! (1%N, 2%N) = Some 0) /\
  (exists store,
      process_create_employee_vesting ∅ register_alice 0 10 (-5) 0 = Ok store /\
      total_amount <$> store !! (1%N, 2%N) = Some (-5)).
Proof.
  split; eexists; (split; [reflexivity |]);
    rewrite lookup_insert_eq; reflexivity.
Qed.

(** ** Every computed amount is an [i64] *)

Lemma wrap_in_range z : I64.in_range (I64.wrap z) = true.
Proof.
  apply in_range_iff. unfold I64.wrap, I64.MIN, I64.modulus.
  pose proof (Z.mod_pos_bound (z - -9223372036854775808) 18446744073709551616
                ltac:(lia)).
  lia.
Qed.

Lemma i64_mul_in_range oc a b p :
  i64_mul oc a b = Ok p -> I64.in_range p = true.
Proof.
  unfold i64_mul. destruct (I64.in_range (a * b)) eqn:E.
  - intros [= <-]. exact E.
  - destruct oc; [discriminate |]. intros [= <-]. apply wrap_in_range.
Qed.

Lemma quot_nonneg_bounds a b :
  0 <= a -> 0 < b -> 0 <= Z.quot a b /\ b * Z.quot a b <= a.
Proof.
  intros Ha Hb. rewrite Z.quot_div_nonneg by lia. split.
  - apply Z.div_pos; lia.
  - apply Z.mul_div_le. lia.
Qed.

Lemma i64_div_in_range p d v :
  I64.in_range p = true -> i64_div p d = Ok v -> I64.in_range v = true.
Proof.
  rewrite !in_range_iff. unfold i64_div, I64.MIN. intros Hp.
  destruct (Z.eqb_spec d 0) as [| Hd]; [discriminate |].
  destruct (Z.eqb_spec p (-9223372036854775808)) as [Hmin | Hmin];
    destruct (Z.eqb_spec d (-1)) as [Hone | Hone]; simpl;
    try discriminate; intros [= <-].
  - (* p = MIN, d <> -1 *)
    destruct (Z.lt_trichotomy d 0) as [Hneg | [? | Hpos]]; [| lia |].
    + replace d with (- (- d)) by ring. rewrite Z.quot_opp_r by lia.
      replace p with (- (- p)) by ring. rewrite Z.quot_opp_l by lia.
      destruct (quot_nonneg_bounds (- p) (- d) ltac:(lia) ltac:(lia)).
      nia.
    + replace p with (- (- p)) by ring. rewrite Z.quot_opp_l by lia.
      destruct (quot_nonneg_bounds (- p) d ltac:(lia) ltac:(lia)).
      nia.
  - (* p <> MIN, d = -1 *)
    subst d. replace (-1) with (- (1)) by reflexivity.
    rewrite Z.quot_opp_r, Z.quot_1_r by lia. lia.
  - (* p <> MIN, d <> -1 *)
    destruct (Z.lt_trichotomy d 0) as [Hneg | [? | Hpos]]; [| lia |];
      destruct (Z.lt_trichotomy p 0) as [Hpn | [Hpz | Hpp]].
    + replace d with (- (- d)) by ring. rewrite Z.quot_opp_r by lia.
      replace p with (- (- p)) by ring. rewrite Z.quot_opp_l by lia.
      destruct (quot_nonneg_bounds (- p) (- d) ltac:(lia) ltac:(lia)).
      nia.
    + subst p. rewrite Z.quot_0_l by lia. lia.
    + replace d with (- (- d)) by ring. rewrite Z.quot_opp_r by lia.
      destruct (quot_nonneg_bounds p (- d) ltac:(lia) ltac:(lia)).
      nia.
    + replace p with (- (- p)) by ring. rewrite Z.quot_opp_l by lia.
      destruct (quot_nonneg_bounds (- p) d ltac:(lia) ltac:(lia)).
      nia.
    + subst p. rewrite Z.quot_0_l by lia. lia.
    + destruct (quot_nonneg_bounds p d ltac:(lia) ltac:(lia)).
      nia.
Qed.

Lemma vested_amount_in_range oc e now v :
  I64.in_range (total_amount e) = true ->
  vested_amount oc e now = Ok v -> I64.in_range v = true.
Proof.
  intros Ht. unfold vested_amount. cbv zeta.
  destruct (now >=? end_time e).
  - intros [= <-]. exact Ht.
  - destruct (i64_mul oc (total_amount e) _) as [p |] eqn:Hm; simpl;
      [| discriminate].
    apply i64_div_in_range. eapply i64_mul_in_range. exact Hm.
Qed.

(** ** Claiming twice at the same time *)

(** The vested amount does not depend on what has been withdrawn. *)
Lemma vested_amount_set_total_withdrawn oc w e now :
  vested_amount oc (set_total_withdrawn w e) now = vested_amount oc e now.
Proof. reflexivity. Qed.

(** What a successful claim has done. *)
Lemma claim_tokens_success oc (Tokens : Type) (tc : Tokens -> Z -> option Tokens)
    now (s s1 : Accounts Tokens) :
  claim_tokens oc tc now s = (Ok tt, s1) ->
  exists c l w,
    cliff_time (employee_account s) <= now /\
    claimable_amount oc (employee_account s) now = Ok c /\
    c <> 0 /\
    tc (tokens s) (I64.as_u64 c) = Some l /\
    i64_add oc (total_withdrawn (employee_account s)) c = Ok w /\
    s1 = mkAccounts (set_total_withdrawn w (employee_account s)) l.
Proof.
  rewrite claim_tokens_unfold. cbv zeta.
  destruct (Z.ltb_spec now (cliff_time (employee_account s))); [discriminate |].
  destruct (claimable_amount oc (employee_account s) now) as [c |];
    [| discriminate].
  destruct (Z.eqb_spec c 0); [discriminate |].
  destruct (tc (tokens s) (I64.as_u64 c)) as [l |] eqn:Htc; [| discriminate].
  destruct (i64_add oc (total_withdrawn (employee_account s)) c) as [w |] eqn:Hadd;
    [| discriminate].
  intros [= <-]. exists c, l, w. auto 10.
Qed.

(** C7 (amended). When a claim at [now] succeeds on a schedule and the
    difference between the vested amount and [total_withdrawn] fits in 64
    bits (the saturating subtraction does not clamp), the claim has raised
    [total_withdrawn] to the vested amount, and a second claim on the
    resulting state at the same [now] returns [NothingToClaim] and leaves
    the state unchanged. *)
Theorem second_claim_returns_nothing oc (Tokens : Type)
    (tc : Tokens -> Z -> option Tokens) now (s s1 : Accounts Tokens) v :
  I64.in_range (total_amount (employee_account s)) = true ->
  claim_tokens oc tc now s = (Ok tt, s1) ->
  vested_amount oc (employee_account s) now = Ok v ->
  I64.in_range (v - total_withdrawn (employee_account s)) = true ->
  cliff_time (employee_account s) <= now /\
  total_withdrawn (employee_account s1) = v /\
  claim_tokens oc tc now s1 = (Err (ProgramError NothingToClaim), s1) /\
  process_claim oc tc now s1 = s1.
Proof.
  intros Ht Hok Hv Hfit.
  destruct (claim_tokens_success oc Tokens tc now s s1 Hok)
    as (c & l & w & Hcliff & Hc & Hnz & Htc & Hadd & ->).
  unfold claimable_amount in Hc. rewrite Hv in Hc. simpl in Hc.
  rewrite saturating_sub_exact in Hc by assumption.
  injection Hc as <-.
  pose proof (vested_amount_in_range oc _ now v Ht Hv) as Hvr.
  rewrite i64_add_exact in Hadd
    by (replace (total_withdrawn (employee_account s)
                 + (v - total_withdrawn (employee_account s))) with v by ring;
        exact Hvr).
  injection Hadd as <-.
  replace (total_withdrawn (employee_account s)
           + (v - total_withdrawn (employee_account s))) with v by ring.
  assert (E : claim_tokens oc tc now
                (mkAccounts (set_total_withdrawn v (employee_account s)) l)
              = (Err (ProgramError NothingToClaim),
                 mkAccounts (set_total_withdrawn v (employee_account s)) l)).
  { apply claim_tokens_zero_claimable; [exact Hcliff |].
    unfold claimable_amount. simpl employee_account.
    rewrite vested_amount_set_total_withdrawn, Hv. simpl.
    unfold I64.saturating_sub. rewrite Z.sub_diag. reflexivity. }
  repeat split; [exact Hcliff | exact E |].
  exact (process_claim_failed _ _ _ _ _ _ _ E).
Qed.

Lemma second_claim_returns_nothing_witness :
  cliff_time alice <= 47304000 /\
  total_withdrawn
    (employee_account
       (mkAccounts (set_total_withdrawn 18000 alice) (mkTokenLedger 30000 18000)))
    = 18000 /\
  claim_tokens true spl_transfer_checked 47304000
      (mkAccounts (set_total_withdrawn 18000 alice) (mkTokenLedger 30000 18000))
    = (Err (ProgramError NothingToClaim),
       mkAccounts (set_total_withdrawn 18000 alice) (mkTokenLedger 30000 18000)) /\
  process_claim true spl_transfer_checked 47304000
      (mkAccounts (set_total_withdrawn 18000 alice) (mkTokenLedger 30000 18000))
    = mkAccounts (set_total_withdrawn 18000 alice) (mkTokenLedger 30000 18000).
Proof.
  apply (second_claim_returns_nothing true TokenLedger spl_transfer_checked
           47304000 (mkAccounts alice (mkTokenLedger 48000 0))
           (mkAccounts (set_total_withdrawn 18000 alice)
                       (mkTokenLedger 30000 18000))
           18000);
    reflexivity.
Defined.

(** C7 as stated fails. The largest schedule (start 1, end and total
    [2^63 - 1], cliff 0), claimed at [now = 0] against a treasury of
    [2^64 - 1] tokens, ends with [total_withdrawn = -1]. With the treasury
    at [2^63] again, a claim at [now = 2^63 - 1] succeeds: the difference
    [2^63] is clamped to [2^63 - 1], so [total_withdrawn] becomes
    [2^63 - 2]; a second claim at the same [now] succeeds as well and
    releases one more token. *)
Lemma second_claim_can_succeed :
  claim_tokens true spl_transfer_checked 0
      (mkAccounts largest_schedule (mkTokenLedger 18446744073709551615 0))
    = (Ok tt, mkAccounts (set_total_withdrawn (-1) largest_schedule)
                         (mkTokenLedger 0 18446744073709551615)) /\
  cliff_time largest_schedule <= 9223372036854775807 /\
  claim_tokens true spl_transfer_checked 9223372036854775807
      (mkAccounts (set_total_withdrawn (-1) largest_schedule)
                  (mkTokenLedger 9223372036854775808 0))
    = (Ok tt, mkAccounts (set_total_withdrawn 9223372036854775806 largest_schedule)
                         (mkTokenLedger 1 9223372036854775807)) /\
  claim_tokens true spl_transfer_checked 9223372036854775807
      (mkAccounts (set_total_withdrawn 9223372036854775806 largest_schedule)
                  (mkTokenLedger 1 9223372036854775807))
    = (Ok tt, mkAccounts (set_total_withdrawn 9223372036854775807 largest_schedule)
                         (mkTokenLedger 0 9223372036854775808)).
Proof. repeat split; try reflexivity; simpl; lia. Qed.

(** ** The withdrawn total along a sequence of claims *)

Lemma sound_schedule_total_in_range e :
  sound_schedule e -> 0 <= total_amount e <= I64.MAX.
Proof. unfold sound_schedule, I64.MAX. intros (Htot & Hdur & Hfit). nia. Qed.

(** One claim on a sound schedule whose withdrawn total is within what
    vests from [now] on: the schedule keeps its parameters, the withdrawn
    total does not go down and stays within what vests from [now] on. *)
Lemma process_claim_preserves oc (Tokens : Type)
    (tc : Tokens -> Z -> option Tokens) now e (l : Tokens) :
  sound_schedule e ->
  start_time e <= cliff_time e ->
  0 <= total_withdrawn e <= total_amount e ->
  (forall t, now <= t -> cliff_time e <= t -> total_withdrawn e <= linear_share e t) ->
  let e' := employee_account (process_claim oc tc now (mkAccounts e l)) in
  start_time e' = start_time e /\
  end_time e' = end_time e /\
  total_amount e' = total_amount e /\
  cliff_time e' = cliff_time e /\
  0 <= total_withdrawn e' <= total_amount e /\
  total_withdrawn e <= total_withdrawn e' /\
  (forall t, now <= t -> cliff_time e <= t -> total_withdrawn e' <= linear_share e t).
Proof.
  intros Hs Hsc Hw Hle. cbv zeta.
  pose proof (sound_schedule_total_in_range e Hs) as Hr. unfold I64.MAX in Hr.
  pose proof Hs as (Htot & Hdur & _).
  assert (Hkeep :
            start_time e = start_time e /\ end_time e = end_time e /\
            total_amount e = total_amount e /\ cliff_time e = cliff_time e /\
            0 <= total_withdrawn e <= total_amount e /\
            total_withdrawn e <= total_withdrawn e /\
            (forall t, now <= t -> cliff_time e <= t ->
                       total_withdrawn e <= linear_share e t))
    by (repeat split; (lia || assumption)).
  unfold process_claim. rewrite claim_tokens_unfold. cbv zeta.
  cbn [employee_account tokens].
  destruct (Z.ltb_spec now (cliff_time e)) as [| Hcliff]; [exact Hkeep |].
  unfold claimable_amount. rewrite vested_amount_sound by (assumption || lia).
  simpl result_bind.
  pose proof (linear_share_bounds e now Htot Hdur ltac:(lia)) as Hb.
  specialize (Hle now ltac:(lia) Hcliff) as Hnow.
  rewrite saturating_sub_exact by (apply in_range_iff; lia).
  destruct (Z.eqb_spec (linear_share e now - total_withdrawn e) 0);
    [exact Hkeep |].
  destruct (tc l _) as [l' |]; [| exact Hkeep].
  rewrite i64_add_exact by (apply in_range_iff; lia).
  cbn [employee_account set_total_withdrawn start_time end_time total_amount
       cliff_time total_withdrawn].
  repeat split; try lia.
  intros t Ht Hct.
  pose proof (linear_share_monotone e now t Htot Hdur ltac:(lia)). lia.
Qed.

Lemma linear_share_same_schedule e e' t :
  start_time e' = start_time e -> end_time e' = end_time e ->
  total_amount e' = total_amount e ->
  linear_share e' t = linear_share e t.
Proof. intros Hs He Ht. unfold linear_share. now rewrite Hs, He, Ht. Qed.

Lemma claim_trace_invariant oc (Tokens : Type) (tc : Tokens -> Z -> option Tokens) :
  forall (claims : list (Z * Tokens)) e,
    sound_schedule e ->
    start_time e <= cliff_time e ->
    0 <= total_withdrawn e <= total_amount e ->
    nondecreasing (List.map fst claims) = true ->
    (forall now l rest, claims = (now, l) :: rest ->
       forall t, now <= t -> cliff_time e <= t ->
                 total_withdrawn e <= linear_share e t) ->
    Forall (fun e' => 0 <= total_withdrawn e' <= total_amount e')
           (claim_trace oc tc e claims) /\
    nondecreasing (List.map total_withdrawn (e :: claim_trace oc tc e claims)) = true.
Proof.
  induction claims as [| [now l] rest IH]; intros e Hs Hsc Hw Hsorted Hle.
  - split; [constructor | reflexivity].
  - cbn [claim_trace].
    destruct (process_claim_preserves oc Tokens tc now e l Hs Hsc Hw
                (Hle now l rest eq_refl))
      as (Es & Ee & Et & Ec & Hw' & Hup & Hle').
    set (e' := employee_account (process_claim oc tc now (mkAccounts e l))) in *.
    assert (Hs' : sound_schedule e')
      by (unfold sound_schedule in *; rewrite Es, Ee, Et; exact Hs).
    assert (Hrest : nondecreasing (List.map fst rest) = true).
    { destruct rest as [| [now' l'] rest']; [reflexivity |].
      cbn in Hsorted. apply andb_true_iff in Hsorted. apply Hsorted. }
    destruct (IH e' Hs' ltac:(lia) ltac:(lia) Hrest) as [Hall Hmono].
    { intros now' l' rest' -> t Ht Hct.
      cbn in Hsorted. apply andb_true_iff in Hsorted.
      destruct Hsorted as [Hnn _]. apply Z.leb_le in Hnn.
      rewrite (linear_share_same_schedule e e' t Es Ee Et).
      apply Hle'; lia. }
    split.
    + constructor; [lia | exact Hall].
    + change (List.map total_withdrawn (e :: e' :: claim_trace oc tc e' rest))
        with (total_withdrawn e
              :: List.map total_withdrawn (e' :: claim_trace oc tc e' rest)).
      cbn [List.map] in *. cbn [nondecreasing].
      apply andb_true_iff. split; [apply Z.leb_le; lia | exact Hmono].
Qed.

(** C5 (amended). For a schedule created with a non-negative total, the
    start not after the cliff and before the end, and a total that can be
    multiplied by the duration within 64 bits, and for every sequence of
    claims whose clock readings never decrease, whatever the token ledger
    does: after creation and after every claim
    [0 <= total_withdrawn <= total_amount], and [total_withdrawn] never
    decreases from one state to the next. *)
Theorem total_withdrawn_invariant oc (Tokens : Type)
    (tc : Tokens -> Z -> option Tokens) ctx start_t end_t total cliff_t e0
    (claims : list (Z * Tokens)) :
  create_employee_vesting ctx start_t end_t total cliff_t = Ok e0 ->
  0 <= total ->
  start_t <= cliff_t ->
  start_t < end_t ->
  total * (end_t - start_t) <= I64.MAX ->
  nondecreasing (List.map fst claims) = true ->
  Forall (fun e => 0 <= total_withdrawn e <= total_amount e)
         (e0 :: claim_trace oc tc e0 claims) /\
  nondecreasing (List.map total_withdrawn (e0 :: claim_trace oc tc e0 claims)) = true.
Proof.
  intros Hcreate Htot Hsc Hdur Hfit Hsorted.
  injection Hcreate as <-.
  match goal with |- context [claim_trace oc tc ?x claims] => set (e0 := x) end.
  assert (Hs : sound_schedule e0) by (unfold sound_schedule; simpl; lia).
  destruct (claim_trace_invariant oc Tokens tc claims e0 Hs Hsc
              ltac:(simpl; lia) Hsorted) as [Hall Hmono].
  { intros now l rest _ t Ht Hct.
    pose proof (linear_share_bounds e0 t Htot Hdur ltac:(simpl in *; lia)).
    simpl total_withdrawn. lia. }
  split; [constructor; [simpl; lia | exact Hall] | exact Hmono].
Qed.

Lemma total_withdrawn_invariant_witness :
  Forall (fun e => 0 <= total_withdrawn e <= total_amount e)
         (alice :: claim_trace true spl_transfer_checked alice
                     [(15768000, mkTokenLedger 48000 0);
                      (47304000, mkTokenLedger 48000 0);
                      (126144000, mkTokenLedger 30000 18000);
                      (126144000, mkTokenLedger 0 48000)]) /\
  nondecreasing
    (List.map total_withdrawn
       (alice :: claim_trace true spl_transfer_checked alice
                   [(15768000, mkTokenLedger 48000 0);
                    (47304000, mkTokenLedger 48000 0);
                    (126144000, mkTokenLedger 30000 18000);
                    (126144000, mkTokenLedger 0 48000)])) = true.
Proof.
  apply (total_withdrawn_invariant true TokenLedger spl_transfer_checked
           register_alice 0 126144000 48000 31536000 alice).
  - reflexivity.
  - lia.
  - lia.
  - lia.
  - unfold I64.MAX. lia.
  - reflexivity.
Defined.

(** C5 as stated fails. A schedule created with [total_amount = -1] starts
    with [total_withdrawn = 0 > total_amount]. And on the schedule with the
    cliff before the start, a claim at [now = 50] against a treasury of
    [2^64 - 1] tokens lowers [total_withdrawn] from 0 to [-500]. *)
Lemma total_withdrawn_can_leave_bounds :
  (exists e,
      create_employee_vesting register_alice 0 10 (-1) 0 = Ok e /\
      total_withdrawn e = 0 /\ total_amount e = -1) /\
  create_employee_vesting register_alice 100 200 1000 0 = Ok early_cliff /\
  List.map total_withdrawn
    (claim_trace true spl_transfer_checked early_cliff
       [(50, mkTokenLedger 18446744073709551615 0)]) = [-500].
Proof.
  split; [eexists; repeat split; reflexivity |].
  split; reflexivity.
Qed.

(** ** Further properties of schedule creation *)

Lemma process_create_employee_vesting_stored
    (store store' : Schedules) ctx start_t end_t total cliff_t :
  process_create_employee_vesting store ctx start_t end_t total cliff_t = Ok store' ->
  is_Some (store' !! (ctx_beneficiary ctx, ctx_vesting_key ctx)).
Proof.
  unfold process_create_employee_vesting.
  destruct (negb _); [discriminate |].
  destruct (store !! _); [discriminate |]. simpl.
  intros [= <-]. rewrite lookup_insert_eq. eauto.
Qed.

(** X1. Whenever [create_employee_vesting] goes through, the signer is
    the owner recorded in the vesting account and the derived address was
    free; the new schedule sits at that address with nothing withdrawn,
    and every other schedule of the store is as before. *)
Theorem create_employee_vesting_effect
    (store store' : Schedules) ctx start_t end_t total cliff_t :
  process_create_employee_vesting store ctx start_t end_t total cliff_t = Ok store' ->
  owner (ctx_vesting_account ctx) = ctx_owner ctx /\
  store !! (ctx_beneficiary ctx, ctx_vesting_key ctx) = None /\
  (exists e,
      store' !! (ctx_beneficiary ctx, ctx_vesting_key ctx) = Some e /\
      create_employee_vesting ctx start_t end_t total cliff_t = Ok e /\
      total_withdrawn e = 0) /\
  (forall k, k <> (ctx_beneficiary ctx, ctx_vesting_key ctx) ->
             store' !! k = store !! k).
Proof.
  unfold process_create_employee_vesting.
  destruct (N.eqb_spec (owner (ctx_vesting_account ctx)) (ctx_owner ctx))
    as [Howner | Howner]; simpl; [| discriminate].
  destruct (store !! (ctx_beneficiary ctx, ctx_vesting_key ctx)) eqn:Hfree;
    [discriminate |].
  intros [= <-]. split; [exact Howner |]. split; [reflexivity |]. split.
  - eexists. split; [apply lookup_insert_eq |]. split; reflexivity.
  - intros k Hk. apply lookup_insert_ne. congruence.
Qed.

Lemma create_employee_vesting_effect_witness :
  owner (ctx_vesting_account register_alice) = ctx_owner register_alice /\
  (∅ : Schedules) !! (ctx_beneficiary register_alice, ctx_vesting_key register_alice)
    = None /\
  (exists e,
      (<[(1%N, 2%N) := alice]> ∅ : Schedules)
        !! (ctx_beneficiary register_alice, ctx_vesting_key register_alice) = Some e /\
      create_employee_vesting register_alice 0 126144000 48000 31536000 = Ok e /\
      total_withdrawn e = 0) /\
  (forall k, k <> (ctx_beneficiary register_alice, ctx_vesting_key register_alice) ->
             (<[(1%N, 2%N) := alice]> ∅ : Schedules) !! k = (∅ : Schedules) !! k).
Proof.
  apply (create_employee_vesting_effect ∅ (<[(1%N, 2%N) := alice]> ∅)
           register_alice 0 126144000 48000 31536000).
  reflexivity.
Defined.

(** X2. A schedule is created once: after a successful creation for a
    beneficiary under a vesting account, every further creation for the
    same pair fails, whoever signs and whatever the parameters. *)
Theorem create_employee_vesting_never_twice
    (store store' : Schedules) (ctx ctx' : CreateEmployeeAccount)
    (start_t end_t total cliff_t start_t' end_t' total' cliff_t' : Z) :
  process_create_employee_vesting store ctx start_t end_t total cliff_t = Ok store' ->
  ctx_beneficiary ctx' = ctx_beneficiary ctx ->
  ctx_vesting_key ctx' = ctx_vesting_key ctx ->
  exists f,
    process_create_employee_vesting store' ctx' start_t' end_t' total' cliff_t'
      = Err f.
Proof.
  intros Hfirst Hb Hv.
  destruct (process_create_employee_vesting_stored _ _ _ _ _ _ _ Hfirst)
    as [e He].
  unfold process_create_employee_vesting.
  destruct (negb _); [eexists; reflexivity |].
  rewrite Hb, Hv, He. eexists. reflexivity.
Qed.

Lemma create_employee_vesting_never_twice_witness :
  exists f,
    process_create_employee_vesting (<[(1%N, 2%N) := alice]> ∅) register_alice
        5 50 77 10
      = Err f.
Proof.
  apply (create_employee_vesting_never_twice ∅ (<[(1%N, 2%N) := alice]> ∅)
           register_alice register_alice 0 126144000 48000 31536000 5 50 77 10);
    reflexivity.
Defined.

(** ** Further properties of the claim handler *)

(** X3. A claim, whatever its outcome, leaves the parameters of the
    schedule as they are: beneficiary, start, end, cliff, total, vesting
    account and bump. Only [total_withdrawn] can change. *)
Theorem process_claim_keeps_parameters oc (Tokens : Type)
    (tc : Tokens -> Z -> option Tokens) now (s : Accounts Tokens) :
  set_total_withdrawn (total_withdrawn (employee_account s))
      (employee_account (process_claim oc tc now s))
    = employee_account s.
Proof.
  assert (Hsame : forall e, set_total_withdrawn (total_withdrawn e) e = e)
    by (intros []; reflexivity).
  unfold process_claim. rewrite claim_tokens_unfold. cbv zeta.
  destruct (now <? cliff_time (employee_account s)); [apply Hsame |].
  destruct (claimable_amount oc (employee_account s) now) as [c |];
    [| apply Hsame].
  destruct (c =? 0); [apply Hsame |].
  destruct (tc (tokens s) (I64.as_u64 c)); [| apply Hsame].
  destruct (i64_add oc (total_withdrawn (employee_account s)) c);
    [| apply Hsame].
  cbn [employee_account]. destruct (employee_account s). reflexivity.
Qed.

(** X4. The handler writes [total_withdrawn] only on its way to [Ok]:
    whenever it returns an error the employee account it leaves behind is
    the one it found, and whenever it returns [Ok] the token program has
    accepted a transfer. *)
Theorem claim_tokens_writes_only_on_success oc (Tokens : Type)
    (tc : Tokens -> Z -> option Tokens) now (s s' : Accounts Tokens) r :
  claim_tokens oc tc now s = (r, s') ->
  match r with
  | Err _ => employee_account s' = employee_account s
  | Ok _ => exists amount, tc (tokens s) amount = Some (tokens s')
  end.
Proof.
  rewrite claim_tokens_unfold. cbv zeta.
  destruct (now <? cliff_time (employee_account s)); [now intros [= <- <-] |].
  destruct (claimable_amount oc (employee_account s) now) as [c |];
    [| now intros [= <- <-]].
  destruct (c =? 0); [now intros [= <- <-] |].
  destruct (tc (tokens s) (I64.as_u64 c)) as [l |] eqn:Htc;
    [| now intros [= <- <-]].
  destruct (i64_add oc (total_withdrawn (employee_account s)) c);
    intros [= <- <-]; [| reflexivity].
  exists (I64.as_u64 c). exact Htc.
Qed.

Lemma claim_tokens_writes_only_on_success_witness :
  exists amount,
    spl_transfer_checked (mkTokenLedger 48000 0) amount
      = Some (mkTokenLedger 30000 18000).
Proof.
  apply (claim_tokens_writes_only_on_success true TokenLedger spl_transfer_checked
           47304000 (mkAccounts alice (mkTokenLedger 48000 0))
           (mkAccounts (set_total_withdrawn 18000 alice) (mkTokenLedger 30000 18000))
           (Ok tt)).
  reflexivity.
Defined.

Lemma as_u64_nonnegative c : 0 <= c <= I64.MAX -> I64.as_u64 c = c.
Proof.
  unfold I64.as_u64, I64.MAX, I64.modulus. intros H.
  apply Z.mod_small. lia.
Qed.

(** X5. On a well-formed account a successful claim raises
    [total_withdrawn] by exactly the claimable amount, in both overflow
    modes, and hands the unsigned reading of that amount to the token
    program; when the claimable amount is positive the tokens moved are
    exactly the increase of [total_withdrawn]. *)
Theorem claim_tokens_accounting oc (Tokens : Type)
    (tc : Tokens -> Z -> option Tokens) now (s s1 : Accounts Tokens) :
  well_formed (employee_account s) ->
  claim_tokens oc tc now s = (Ok tt, s1) ->
  exists c,
    claimable_amount oc (employee_account s) now = Ok c /\
    total_withdrawn (employee_account s1) = total_withdrawn (employee_account s) + c /\
    tc (tokens s) (I64.as_u64 c) = Some (tokens s1) /\
    (0 < c -> I64.as_u64 c = c).
Proof.
  intros (_ & _ & Ht & Hw & _) Hok.
  destruct (claim_tokens_success oc Tokens tc now s s1 Hok)
    as (c & l & w & Hcliff & Hc & Hnz & Htc & Hadd & ->).
  exists c. split; [exact Hc |].
  unfold claimable_amount in Hc.
  destruct (vested_amount oc (employee_account s) now) as [v |] eqn:Hv;
    [| discriminate].
  simpl in Hc. injection Hc as Hc.
  pose proof (vested_amount_in_range oc _ now v Ht Hv) as Hvr.
  apply in_range_iff in Hvr, Hw.
  assert (Hcr : -9223372036854775808 <= c <= 9223372036854775807)
    by (subst c; unfold I64.saturating_sub, I64.MIN, I64.MAX; lia).
  assert (Hsum : I64.in_range (total_withdrawn (employee_account s) + c) = true)
    by (apply in_range_iff; subst c;
        unfold I64.saturating_sub, I64.MIN, I64.MAX; lia).
  rewrite i64_add_exact in Hadd by exact Hsum. injection Hadd as <-.
  repeat split; [exact Htc |].
  intros Hpos. apply as_u64_nonnegative. unfold I64.MAX. lia.
Qed.

Lemma claim_tokens_accounting_witness :
  exists c,
    claimable_amount true alice 47304000 = Ok c /\
    total_withdrawn (set_total_withdrawn 18000 alice) = total_withdrawn alice + c /\
    spl_transfer_checked (mkTokenLedger 48000 0) (I64.as_u64 c)
      = Some (mkTokenLedger 30000 18000) /\
    (0 < c -> I64.as_u64 c = c).
Proof.
  apply (claim_tokens_accounting true TokenLedger spl_transfer_checked 47304000
           (mkAccounts alice (mkTokenLedger 48000 0))
           (mkAccounts (set_total_withdrawn 18000 alice) (mkTokenLedger 30000 18000))).
  - repeat split; reflexivity.
  - reflexivity.
Defined.

(** What a claim does on a sound schedule, as one equation. *)
Lemma claim_tokens_sound oc (Tokens : Type)
    (tc : Tokens -> Z -> option Tokens) now (s : Accounts Tokens) :
  sound_schedule (employee_account s) ->
  start_time (employee_account s) <= cliff_time (employee_account s) <= now ->
  0 <= total_withdrawn (employee_account s)
    <= linear_share (employee_account s) now ->
  claim_tokens oc tc now s =
    if linear_share (employee_account s) now =? total_withdrawn (employee_account s)
    then (Err (ProgramError NothingToClaim), s)
    else
      match tc (tokens s)
               (linear_share (employee_account s) now
                - total_withdrawn (employee_account s)) with
      | None => (Err TransferFailed, s)
      | Some l =>
          (Ok tt,
           mkAccounts (set_total_withdrawn (linear_share (employee_account s) now)
                                           (employee_account s)) l)
      end.
Proof.
  intros Hs [Hsc Hcliff] Hw.
  set (e := employee_account s) in *.
  pose proof (sound_schedule_total_in_range e Hs) as Hr. unfold I64.MAX in Hr.
  pose proof Hs as (Htot & Hdur & _).
  pose proof (linear_share_bounds e now Htot Hdur ltac:(lia)) as Hb.
  rewrite claim_tokens_unfold. cbv zeta. fold e.
  destruct (Z.ltb_spec now (cliff_time e)); [lia |].
  unfold claimable_amount. rewrite vested_amount_sound by (assumption || lia).
  simpl result_bind.
  rewrite saturating_sub_exact by (apply in_range_iff; lia).
  destruct (Z.eqb_spec (linear_share e now - total_withdrawn e) 0);
    destruct (Z.eqb_spec (linear_share e now) (total_withdrawn e));
    try lia; [reflexivity |].
  rewrite as_u64_nonnegative by (unfold I64.MAX; lia).
  destruct (tc (tokens s) _); [| reflexivity].
  rewrite i64_add_exact by (apply in_range_iff; lia).
  repeat f_equal. lia.
Qed.

(** X6. On a sound schedule whose cliff is not before its start and
    whose withdrawn total is within what has vested, a claim at or after
    the cliff does exactly this: [NothingToClaim] when the linear share
    equals what is withdrawn; otherwise it asks the token program for the
    difference and, if the transfer goes through, sets [total_withdrawn]
    to the linear share. *)
Theorem claim_tokens_on_sound_schedule oc (Tokens : Type)
    (tc : Tokens -> Z -> option Tokens) now (s : Accounts Tokens) :
  sound_schedule (employee_account s) ->
  start_time (employee_account s) <= cliff_time (employee_account s) <= now ->
  0 <= total_withdrawn (employee_account s)
    <= linear_share (employee_account s) now ->
  claim_tokens oc tc now s =
    if linear_share (employee_account s) now =? total_withdrawn (employee_account s)
    then (Err (ProgramError NothingToClaim), s)
    else
      match tc (tokens s)
               (linear_share (employee_account s) now
                - total_withdrawn (employee_account s)) with
      | None => (Err TransferFailed, s)
      | Some l =>
          (Ok tt,
           mkAccounts (set_total_withdrawn (linear_share (employee_account s) now)
                                           (employee_account s)) l)
      end.
Proof. exact (claim_tokens_sound oc Tokens tc now s). Qed.

Lemma claim_tokens_on_sound_schedule_witness :
  claim_tokens true spl_transfer_checked 47304000
      (mkAccounts alice (mkTokenLedger 48000 0))
    = (Ok tt, mkAccounts (set_total_withdrawn 18000 alice)
                         (mkTokenLedger 30000 18000)).
Proof.
  apply (claim_tokens_on_sound_schedule true TokenLedger spl_transfer_checked
           47304000 (mkAccounts alice (mkTokenLedger 48000 0))).
  - unfold sound_schedule, I64.MAX. simpl. lia.
  - simpl. lia.
  - change (0 <= 0 <= linear_share alice 47304000).
    replace (linear_share alice 47304000) with 18000 by reflexivity. lia.
Defined.

(** X7. Claiming in two steps releases what one claim at the later time
    would: on a sound schedule with the cliff not before the start, if a
    claim at [t1] and then a claim at [t2 >= t1] both succeed, the two
    amounts transferred are positive and add up to the linear share at
    [t2] minus what was withdrawn before, and [total_withdrawn] ends at
    that share. *)
Theorem two_claims_release_the_share oc (Tokens : Type)
    (tc : Tokens -> Z -> option Tokens) t1 t2 (s s1 s2 : Accounts Tokens) :
  sound_schedule (employee_account s) ->
  start_time (employee_account s) <= cliff_time (employee_account s) ->
  t1 <= t2 ->
  0 <= total_withdrawn (employee_account s)
    <= linear_share (employee_account s) t1 ->
  claim_tokens oc tc t1 s = (Ok tt, s1) ->
  claim_tokens oc tc t2 s1 = (Ok tt, s2) ->
  total_withdrawn (employee_account s2) = linear_share (employee_account s) t2 /\
  exists a1 a2,
    tc (tokens s) a1 = Some (tokens s1) /\
    tc (tokens s1) a2 = Some (tokens s2) /\
    0 < a1 /\ 0 < a2 /\
    a1 + a2 = linear_share (employee_account s) t2
              - total_withdrawn (employee_account s).
Proof.
  intros Hs Hsc Ht Hw H1 H2.
  set (e := employee_account s) in *.
  pose proof Hs as (Htot & Hdur & _).
  destruct (claim_tokens_success oc Tokens tc t1 s s1 H1)
    as (_ & _ & _ & Hc1 & _). fold e in Hc1.
  rewrite claim_tokens_sound in H1 by (fold e; (assumption || lia)).
  fold e in H1.
  destruct (Z.eqb_spec (linear_share e t1) (total_withdrawn e)) as [| Hne1];
    [discriminate |].
  destruct (tc (tokens s) (linear_share e t1 - total_withdrawn e)) as [l1 |] eqn:Htc1;
    [| discriminate].
  injection H1 as <-.
  set (e1 := set_total_withdrawn (linear_share e t1) e) in *.
  assert (Hs1 : sound_schedule e1) by exact Hs.
  pose proof (linear_share_monotone e t1 t2 Htot Hdur ltac:(lia)) as Hmono.
  pose proof (linear_share_bounds e t1 Htot Hdur ltac:(lia)) as Hb1.
  assert (Hshare : forall t, linear_share e1 t = linear_share e t) by reflexivity.
  rewrite claim_tokens_sound in H2
    by (cbn [employee_account]; rewrite ?Hshare;
        (exact Hs1 || (simpl; fold e; lia))).
  cbn [employee_account tokens] in H2. rewrite Hshare in H2.
  change (total_withdrawn e1) with (linear_share e t1) in H2.
  destruct (Z.eqb_spec (linear_share e t2) (linear_share e t1)) as [| Hne2];
    [discriminate |].
  destruct (tc l1 (linear_share e t2 - linear_share e t1)) as [l2 |] eqn:Htc2;
    [| discriminate].
  injection H2 as <-. split; [reflexivity |].
  exists (linear_share e t1 - total_withdrawn e),
         (linear_share e t2 - linear_share e t1).
  cbn [tokens]. repeat split; try assumption; lia.
Qed.

Lemma two_claims_release_the_share_witness :
  total_withdrawn (set_total_withdrawn 48000 alice) = linear_share alice 126144000 /\
  exists a1 a2,
    spl_transfer_checked (mkTokenLedger 48000 0) a1 = Some (mkTokenLedger 30000 18000) /\
    spl_transfer_checked (mkTokenLedger 30000 18000) a2 = Some (mkTokenLedger 0 48000) /\
    0 < a1 /\ 0 < a2 /\
    a1 + a2 = linear_share alice 126144000 - total_withdrawn alice.
Proof.
  apply (two_claims_release_the_share true TokenLedger spl_transfer_checked
           47304000 126144000
           (mkAccounts alice (mkTokenLedger 48000 0))
           (mkAccounts (set_total_withdrawn 18000 alice) (mkTokenLedger 30000 18000))
           (mkAccounts (set_total_withdrawn 48000 alice) (mkTokenLedger 0 48000))).
  - unfold sound_schedule, I64.MAX. simpl. lia.
  - simpl. lia.
  - lia.
  - change (0 <= 0 <= linear_share alice 47304000).
    replace (linear_share alice 47304000) with 18000 by reflexivity. lia.
  - reflexivity.
  - reflexivity.
Defined.

(** ** The helper methods and a full claim *)

Lemma i64_sub_exact oc a b :
  I64.in_range (a - b) = true -> i64_sub oc a b = Done (a - b).
Proof. intros H. unfold i64_sub. now rewrite H. Qed.

(** X8. Once [is_fully_vested] holds, a successful claim on an account
    whose total and whose outstanding amount fit in 64 bits leaves
    [remaining_tokens] at zero, and every claim at that time or later
    returns [NothingToClaim]. *)
Theorem claim_when_fully_vested oc (Tokens : Type)
    (tc : Tokens -> Z -> option Tokens) now (s s1 : Accounts Tokens) :
  is_fully_vested (employee_account s) now = true ->
  I64.in_range (total_amount (employee_account s)) = true ->
  I64.in_range (total_amount (employee_account s)
                - total_withdrawn (employee_account s)) = true ->
  claim_tokens oc tc now s = (Ok tt, s1) ->
  total_withdrawn (employee_account s1) = total_amount (employee_account s1) /\
  remaining_tokens oc (employee_account s1) = Done 0 /\
  (forall later, now <= later ->
     is_fully_vested (employee_account s1) later = true /\
     claim_tokens oc tc later s1 = (Err (ProgramError NothingToClaim), s1)).
Proof.
  unfold is_fully_vested. intros Hfull Ht Hfit Hok.
  apply Z.geb_le in Hfull.
  destruct (claim_tokens_success oc Tokens tc now s s1 Hok)
    as (c & l & w & Hcliff & Hc & Hnz & Htc & Hadd & ->).
  set (e := employee_account s) in *.
  unfold claimable_amount in Hc.
  rewrite vested_amount_after_end in Hc by exact Hfull. simpl in Hc.
  rewrite saturating_sub_exact in Hc by exact Hfit. injection Hc as <-.
  rewrite i64_add_exact in Hadd
    by (replace (total_withdrawn e + (total_amount e - total_withdrawn e))
          with (total_amount e) by ring; exact Ht).
  injection Hadd as <-.
  replace (total_withdrawn e + (total_amount e - total_withdrawn e))
    with (total_amount e) by ring.
  cbn [employee_account set_total_withdrawn total_withdrawn total_amount end_time].
  split; [reflexivity |]. split.
  - unfold remaining_tokens. cbn [set_total_withdrawn total_withdrawn total_amount].
    rewrite i64_sub_exact by (rewrite Z.sub_diag; reflexivity).
    now rewrite Z.sub_diag.
  - intros later Hlater. split; [apply Z.geb_le; lia |].
    apply claim_tokens_zero_claimable.
    + cbn [employee_account set_total_withdrawn cliff_time]. lia.
    + unfold claimable_amount. cbn [employee_account].
      rewrite vested_amount_after_end
        by (cbn [set_total_withdrawn end_time]; lia).
      cbn [result_bind set_total_withdrawn total_withdrawn total_amount].
      unfold I64.saturating_sub. rewrite Z.sub_diag. reflexivity.
Qed.

Lemma claim_when_fully_vested_witness :
  total_withdrawn (set_total_withdrawn 48000 alice)
    = total_amount (set_total_withdrawn 48000 alice) /\
  remaining_tokens true (set_total_withdrawn 48000 alice) = Done 0 /\
  (forall later, 126144000 <= later ->
     is_fully_vested (set_total_withdrawn 48000 alice) later = true /\
     claim_tokens true spl_transfer_checked later
         (mkAccounts (set_total_withdrawn 48000 alice) (mkTokenLedger 0 48000))
       = (Err (ProgramError NothingToClaim),
          mkAccounts (set_total_withdrawn 48000 alice) (mkTokenLedger 0 48000))).
Proof.
  apply (claim_when_fully_vested true TokenLedger spl_transfer_checked 126144000
           (mkAccounts alice (mkTokenLedger 48000 0))
           (mkAccounts (set_total_withdrawn 48000 alice) (mkTokenLedger 0 48000)));
    reflexivity.
Defined.

(** ** The proposed calculation *)

(** From the cliff on, whenever the two differences it forms fit in 64
    bits, the proposed calculation is the deployed one. *)
Lemma calculate_vested_amount_core oc e now :
  cliff_time e <= now ->
  (now < end_time e ->
   I64.in_range (end_time e - start_time e) = true /\
   I64.in_range (now - start_time e) = true) ->
  calculate_vested_amount oc e now = core (vested_amount oc e now).
Proof.
  intros Hcliff Hfit. unfold calculate_vested_amount, vested_amount. cbv zeta.
  destruct (Z.ltb_spec now (cliff_time e)); [lia |].
  destruct (Z.geb_spec now (end_time e)) as [| Hlt]; [reflexivity |].
  destruct (Hfit Hlt) as [Hd He].
  rewrite !i64_sub_exact, !saturating_sub_exact by assumption. simpl.
  destruct (i64_mul oc (total_amount e) (now - start_time e)); reflexivity.
Qed.

(** X9. [calculate_vested_amount] returns 0 before the cliff on every
    schedule. From the cliff on, whenever [end_time - start_time] and
    [now - start_time] fit in 64 bits, it returns what the calculation of
    [claim_tokens] returns, value or abort, in both overflow modes. *)
Theorem calculate_vested_amount_agrees oc e now :
  (now < cliff_time e -> calculate_vested_amount oc e now = Done 0) /\
  (cliff_time e <= now ->
   I64.in_range (end_time e - start_time e) = true ->
   I64.in_range (now - start_time e) = true ->
   calculate_vested_amount oc e now = core (vested_amount oc e now)).
Proof.
  split.
  - intros H. unfold calculate_vested_amount.
    destruct (Z.ltb_spec now (cliff_time e)); [reflexivity | lia].
  - intros Hcliff Hd He. apply calculate_vested_amount_core; auto.
Qed.

Lemma calculate_vested_amount_agrees_witness :
  calculate_vested_amount true zero_duration (-5) = Done 0 /\
  calculate_vested_amount false wide_schedule 2
    = core (vested_amount false wide_schedule 2).
Proof.
  split.
  - apply (proj1 (calculate_vested_amount_agrees true zero_duration (-5))).
    simpl. lia.
  - apply (proj2 (calculate_vested_amount_agrees false wide_schedule 2));
      [simpl; lia | reflexivity | reflexivity].
Defined.

(** X10. On a sound schedule whose cliff is not before its start and
    whose duration fits in 64 bits, [calculate_vested_amount] is the
    reference calculation of the specification at every [now]: zero
    before the cliff, the total from the end on, the floor of the linear
    share in between. *)
Theorem calculate_vested_amount_is_reference oc e now :
  sound_schedule e ->
  start_time e <= cliff_time e ->
  I64.in_range (end_time e - start_time e) = true ->
  calculate_vested_amount oc e now = Done (vestedAmount_spec e now).
Proof.
  intros Hs Hsc Hd. unfold vestedAmount_spec.
  destruct (Z.ltb_spec now (cliff_time e)) as [Hlt | Hge].
  - unfold calculate_vested_amount.
    destruct (Z.ltb_spec now (cliff_time e)); [reflexivity | lia].
  - rewrite calculate_vested_amount_core.
    + rewrite vested_amount_sound by (assumption || lia). reflexivity.
    + exact Hge.
    + intros Hend. split; [exact Hd |].
      apply in_range_iff in Hd. apply in_range_iff. lia.
Qed.

Lemma calculate_vested_amount_is_reference_witness :
  calculate_vested_amount true alice 15768000
    = Done (vestedAmount_spec alice 15768000).
Proof.
  apply (calculate_vested_amount_is_reference true alice 15768000).
  - unfold sound_schedule, I64.MAX. simpl. lia.
  - simpl. lia.
  - reflexivity.
Defined.

(** ** Revocation *)

(** X11. [revoke_vesting] freezes the schedule: when it succeeds at
    [current_time], the amount in its event is what had vested at that
    time, and from then on [calculate_vested_amount] on the revoked
    schedule returns that amount at every time; the schedule counts as
    fully vested, and beneficiary, start, cliff and [total_withdrawn] are
    untouched. *)
Theorem revoke_vesting_freezes oc company current_time e e' ev :
  revoke_vesting oc company current_time e = Done (e', ev) ->
  calculate_vested_amount oc e current_time = Done (ev_vested_amount ev) /\
  ev_revoked_time ev = current_time /\
  ev_employee ev = beneficiary e /\
  (forall t, current_time <= t ->
     calculate_vested_amount oc e' t = Done (ev_vested_amount ev) /\
     is_fully_vested e' t = true) /\
  set_end_time (end_time e) (set_total_amount (total_amount e) e') = e.
Proof.
  unfold revoke_vesting.
  destruct (calculate_vested_amount oc e current_time) as [v |] eqn:Hv;
    simpl; [| discriminate].
  intros [= <- <-]. simpl.
  split; [reflexivity |]. split; [reflexivity |]. split; [reflexivity |].
  split.
  - intros t Ht. unfold calculate_vested_amount, is_fully_vested. simpl.
    destruct (Z.geb_spec t current_time); [| lia].
    split; [| reflexivity].
    destruct (Z.ltb_spec t (cliff_time e)) as [Hlt | _]; [| reflexivity].
    unfold calculate_vested_amount in Hv.
    destruct (Z.ltb_spec current_time (cliff_time e)); [| lia].
    congruence.
  - destruct e. reflexivity.
Qed.

Lemma revoke_vesting_freezes_witness :
  calculate_vested_amount true alice 47304000 = Done 18000 /\
  47304000 = 47304000 /\
  1%N = beneficiary alice /\
  (forall t, 47304000 <= t ->
     calculate_vested_amount true
         (set_end_time 47304000 (set_total_amount 18000 alice)) t = Done 18000 /\
     is_fully_vested (set_end_time 47304000 (set_total_amount 18000 alice)) t = true) /\
  set_end_time (end_time alice)
      (set_total_amount (total_amount alice)
         (set_end_time 47304000 (set_total_amount 18000 alice))) = alice.
Proof.
  apply (revoke_vesting_freezes true 2%N 47304000 alice
           (set_end_time 47304000 (set_total_amount 18000 alice))
           (mkVestingRevokedEvent 1%N 2%N 18000 47304000)).
  reflexivity.
Defined.

(** ** Updates of a schedule *)

(** X12. The check [new_amount >= current_vested] of
    [update_employee_vesting] does not keep the vested amount. On a sound
    schedule in its linear phase (cliff not before the start, duration
    fitting in 64 bits, something vested already), lowering the total to
    exactly the amount vested so far is accepted, and on the updated
    schedule [calculate_vested_amount] at the same time returns strictly
    less than before. *)
Theorem update_employee_vesting_can_lower_vested oc e now :
  sound_schedule e ->
  start_time e <= cliff_time e <= now ->
  now < end_time e ->
  I64.in_range (end_time e - start_time e) = true ->
  0 < linear_share e now ->
  calculate_vested_amount oc e now = Done (linear_share e now) /\
  update_employee_vesting oc now (Some (linear_share e now)) None e
    = (Done tt, set_total_amount (linear_share e now) e) /\
  exists v',
    calculate_vested_amount oc (set_total_amount (linear_share e now) e) now
      = Done v' /\
    v' < linear_share e now.
Proof.
  intros Hs [Hsc Hcliff] Hend Hd Hpos.
  pose proof Hs as (Htot & Hdur & Hfit).
  pose proof (linear_share_bounds e now Htot Hdur ltac:(lia)) as Hb.
  assert (Hrange : now < end_time e ->
                   I64.in_range (end_time e - start_time e) = true /\
                   I64.in_range (now - start_time e) = true).
  { intros _. split; [exact Hd |].
    apply in_range_iff in Hd. apply in_range_iff. lia. }
  assert (Hcalc : calculate_vested_amount oc e now = Done (linear_share e now)).
  { rewrite calculate_vested_amount_core by assumption.
    rewrite vested_amount_sound by (assumption || lia). reflexivity. }
  split; [exact Hcalc |]. split.
  - unfold update_employee_vesting. rewrite Hcalc.
    destruct (Z.geb_spec (linear_share e now) (linear_share e now)); [| lia].
    reflexivity.
  - set (e' := set_total_amount (linear_share e now) e).
    assert (Hs' : sound_schedule e').
    { unfold sound_schedule, e', I64.MAX in *. simpl. repeat split; nia. }
    exists (linear_share e' now). split.
    + rewrite calculate_vested_amount_core by (assumption || exact Hrange).
      rewrite vested_amount_sound by (assumption || (simpl; lia)). reflexivity.
    + unfold linear_share at 1. simpl.
      destruct (Z.geb_spec now (end_time e)); [lia |].
      apply Z.div_lt_upper_bound; nia.
Qed.

Lemma update_employee_vesting_can_lower_vested_witness :
  calculate_vested_amount true alice 47304000 = Done (linear_share alice 47304000) /\
  update_employee_vesting true 47304000 (Some (linear_share alice 47304000)) None alice
    = (Done tt, set_total_amount (linear_share alice 47304000) alice) /\
  exists v',
    calculate_vested_amount true
        (set_total_amount (linear_share alice 47304000) alice) 47304000 = Done v' /\
    v' < linear_share alice 47304000.
Proof.
  apply (update_employee_vesting_can_lower_vested true alice 47304000).
  - unfold sound_schedule, I64.MAX. simpl. lia.
  - simpl. lia.
  - simpl. lia.
  - reflexivity.
  - replace (linear_share alice 47304000) with 18000 by reflexivity. lia.
Defined.

(** X13. [update_vesting_schedule] keeps the withdrawn total within the
    allocation: on an account with [total_withdrawn <= total_amount],
    whenever the update succeeds the bound still holds, [total_withdrawn]
    is untouched, a new end time lies after the clock reading, and a new
    total is at least what has been withdrawn. *)
Theorem update_vesting_schedule_keeps_bound now new_end new_total e e' :
  total_withdrawn e <= total_amount e ->
  update_vesting_schedule now new_end new_total e = (Done tt, e') ->
  total_withdrawn e' = total_withdrawn e /\
  total_withdrawn e' <= total_amount e' /\
  end_time e' = default (end_time e) new_end /\
  total_amount e' = default (total_amount e) new_total /\
  (forall t, new_end = Some t -> now < t) /\
  (forall a, new_total = Some a -> total_withdrawn e <= a).
Proof.
  intros Hw. unfold update_vesting_schedule.
  destruct new_end as [t |]; destruct new_total as [a |]; cbv zeta;
    repeat match goal with
           | |- context [?x >? ?y] => destruct (Z.gtb_spec x y)
           | |- context [?x >=? ?y] => destruct (Z.geb_spec x y)
           end;
    simpl; try discriminate; intros [= <-]; simpl in *;
    repeat split; try lia; intros ? [= <-]; lia.
Qed.

Lemma update_vesting_schedule_keeps_bound_witness :
  total_withdrawn (set_total_amount 20000 (set_end_time 200000000
                     (set_total_withdrawn 18000 alice))) = 18000 /\
  total_withdrawn (set_total_amount 20000 (set_end_time 200000000
                     (set_total_withdrawn 18000 alice)))
    <= total_amount (set_total_amount 20000 (set_end_time 200000000
                       (set_total_withdrawn 18000 alice))) /\
  end_time (set_total_amount 20000 (set_end_time 200000000
              (set_total_withdrawn 18000 alice))) = 200000000 /\
  total_amount (set_total_amount 20000 (set_end_time 200000000
                  (set_total_withdrawn 18000 alice))) = 20000 /\
  (forall t, Some 200000000 = Some t -> 47304000 < t) /\
  (forall a, Some 20000 = Some a -> 18000 <= a).
Proof.
  apply (update_vesting_schedule_keeps_bound 47304000 (Some 200000000) (Some 20000)
           (set_total_withdrawn 18000 alice)
           (set_total_amount 20000 (set_end_time 200000000
              (set_total_withdrawn 18000 alice)))).
  - simpl. lia.
  - reflexivity.
Defined.

(** ** The proposed claim instruction *)

Lemma wrap_shift z : exists k, I64.wrap z = z + k * I64.modulus.
Proof.
  unfold I64.wrap, I64.modulus, I64.MIN.
  exists (- ((z - -9223372036854775808) / 18446744073709551616)).
  rewrite Z.mod_eq by lia. ring.
Qed.

Lemma i64_sub_shift oc a b c :
  i64_sub oc a b = Done c ->
  I64.in_range c = true /\ exists k, c = a - b + k * I64.modulus.
Proof.
  unfold i64_sub. destruct (I64.in_range (a - b)) eqn:E.
  - intros [= <-]. split; [exact E | exists 0; ring].
  - destruct oc; [discriminate |]. intros [= <-].
    split; [apply wrap_in_range | apply wrap_shift].
Qed.

Lemma i64_add_shift oc a b w :
  i64_add oc a b = Ok w ->
  I64.in_range w = true /\ exists k, w = a + b + k * I64.modulus.
Proof.
  unfold i64_add. destruct (I64.in_range (a + b)) eqn:E.
  - intros [= <-]. split; [exact E | exists 0; ring].
  - destruct oc; [discriminate |]. intros [= <-].
    split; [apply wrap_in_range | apply wrap_shift].
Qed.

Lemma calculate_vested_amount_in_range oc e now v :
  I64.in_range (total_amount e) = true ->
  calculate_vested_amount oc e now = Done v -> I64.in_range v = true.
Proof.
  intros Ht. unfold calculate_vested_amount.
  destruct (now <? cliff_time e); [intros [= <-]; reflexivity |].
  destruct (now >=? end_time e); [intros [= <-]; exact Ht |].
  destruct (i64_sub oc (end_time e) (start_time e)) as [d |]; simpl;
    [| discriminate].
  destruct (i64_sub oc now (start_time e)) as [el |]; simpl; [| discriminate].
  destruct (i64_mul oc (total_amount e) el) as [p |] eqn:Hm; simpl;
    [| discriminate].
  destruct (i64_div p d) as [q |] eqn:Hq; simpl; [| discriminate].
  intros [= <-]. eapply i64_div_in_range; [| exact Hq].
  eapply i64_mul_in_range. exact Hm.
Qed.

(** What a successful [claim_vested_tokens] has done. *)
Lemma claim_vested_tokens_success oc (Tokens : Type)
    (tf : Tokens -> Z -> option Tokens) b now (s s1 : Accounts Tokens) :
  claim_vested_tokens oc tf b now s = Done s1 ->
  exists v c l w,
    b = bump (employee_account s) /\
    cliff_time (employee_account s) <= now /\
    calculate_vested_amount oc (employee_account s) now = Done v /\
    i64_sub oc v (total_withdrawn (employee_account s)) = Done c /\
    0 < c /\
    tf (tokens s) (I64.as_u64 c) = Some l /\
    i64_add oc (total_withdrawn (employee_account s)) c = Ok w /\
    s1 = mkAccounts (set_total_withdrawn w (employee_account s)) l.
Proof.
  unfold claim_vested_tokens, require. cbv zeta.
  destruct (Z.eqb_spec b (bump (employee_account s))); simpl; [| discriminate].
  destruct (Z.geb_spec now (cliff_time (employee_account s))); simpl;
    [| discriminate].
  destruct (calculate_vested_amount oc (employee_account s) now) as [v |];
    simpl; [| discriminate].
  destruct (i64_sub oc v (total_withdrawn (employee_account s))) as [c |] eqn:Hc;
    simpl; [| discriminate].
  destruct (Z.gtb_spec c 0); simpl; [| discriminate].
  destruct (tf (tokens s) (I64.as_u64 c)) as [l |] eqn:Htf; [| discriminate].
  destruct (i64_add oc (total_withdrawn (employee_account s)) c) as [w |] eqn:Hw;
    simpl; [| discriminate].
  intros [= <-]. exists v, c, l, w. auto 10.
Qed.

(** X14. Whenever [claim_vested_tokens] succeeds on an account whose
    total is an [i64], in either overflow mode: the amount handed to the
    token program is positive, [total_withdrawn] ends at the amount
    [calculate_vested_amount] returned, and a second call at the same
    time, whatever the token ledger, returns [NothingToClaim]. *)
Theorem claim_vested_tokens_settles oc (Tokens : Type)
    (tf : Tokens -> Z -> option Tokens) b now (s s1 : Accounts Tokens) :
  I64.in_range (total_amount (employee_account s)) = true ->
  claim_vested_tokens oc tf b now s = Done s1 ->
  (exists amount,
      0 < amount <= I64.MAX /\ tf (tokens s) amount = Some (tokens s1)) /\
  calculate_vested_amount oc (employee_account s) now
    = Done (total_withdrawn (employee_account s1)) /\
  (forall l,
      claim_vested_tokens oc tf b now (mkAccounts (employee_account s1) l)
        = Failed (Core (ProgramError NothingToClaim))).
Proof.
  intros Ht Hok.
  destruct (claim_vested_tokens_success oc Tokens tf b now s s1 Hok)
    as (v & c & l & w & -> & Hcliff & Hv & Hc & Hpos & Htf & Hw & ->).
  set (e := employee_account s) in *.
  pose proof (calculate_vested_amount_in_range oc e now v Ht Hv) as Hvr.
  destruct (i64_sub_shift oc _ _ _ Hc) as [Hcr [k1 Hk1]].
  destruct (i64_add_shift oc _ _ _ Hw) as [Hwr [k2 Hk2]].
  apply in_range_iff in Hvr, Hcr, Hwr. unfold I64.modulus in *.
  assert (Hwv : w = v) by lia. clear k1 Hk1 k2 Hk2. subst w.
  cbn [employee_account tokens set_total_withdrawn total_withdrawn].
  split; [| split].
  - exists c. rewrite as_u64_nonnegative in Htf by (unfold I64.MAX; lia).
    unfold I64.MAX. split; [lia | exact Htf].
  - exact Hv.
  - intros l'. unfold claim_vested_tokens, require. cbv zeta.
    cbn [employee_account set_total_withdrawn bump cliff_time total_withdrawn].
    rewrite Z.eqb_refl. simpl.
    destruct (Z.geb_spec now (cliff_time e)); [| lia]. simpl.
    change (calculate_vested_amount oc (set_total_withdrawn v e) now)
      with (calculate_vested_amount oc e now).
    rewrite Hv. simpl.
    rewrite i64_sub_exact by (rewrite Z.sub_diag; reflexivity).
    rewrite Z.sub_diag. reflexivity.
Qed.

Lemma claim_vested_tokens_settles_witness :
  (exists amount,
      0 < amount <= I64.MAX /\
      spl_transfer_checked (mkTokenLedger 48000 0) amount
        = Some (mkTokenLedger 30000 18000)) /\
  calculate_vested_amount false alice 47304000 = Done 18000 /\
  (forall l,
      claim_vested_tokens false spl_transfer_checked 255 47304000
          (mkAccounts (set_total_withdrawn 18000 alice) l)
        = Failed (Core (ProgramError NothingToClaim))).
Proof.
  apply (claim_vested_tokens_settles false TokenLedger spl_transfer_checked
           255 47304000
           (mkAccounts alice (mkTokenLedger 48000 0))
           (mkAccounts (set_total_withdrawn 18000 alice) (mkTokenLedger 30000 18000)));
    reflexivity.
Defined.

(** X15. On a sound schedule with the cliff not before the start, a
    duration fitting in 64 bits and a withdrawn total within what has
    vested, [claim_vested_tokens] called with the stored bump and
    [claim_tokens] do the same: the same error, or the same transfer and
    the same accounts. *)
Theorem claim_vested_tokens_matches_claim_tokens oc (Tokens : Type)
    (tc : Tokens -> Z -> option Tokens) now (s : Accounts Tokens) :
  sound_schedule (employee_account s) ->
  start_time (employee_account s) <= cliff_time (employee_account s) ->
  I64.in_range (end_time (employee_account s) - start_time (employee_account s))
    = true ->
  0 <= total_withdrawn (employee_account s) ->
  (cliff_time (employee_account s) <= now ->
   total_withdrawn (employee_account s) <= linear_share (employee_account s) now) ->
  claim_vested_tokens oc tc (bump (employee_account s)) now s =
    match claim_tokens oc tc now s with
    | (Ok _, s') => Done s'
    | (Err f, _) => Failed (Core f)
    end.
Proof.
  intros Hs Hsc Hd Hw0 Hw.
  set (e := employee_account s) in *.
  pose proof (sound_schedule_total_in_range e Hs) as Hr. unfold I64.MAX in Hr.
  pose proof Hs as (Htot & Hdur & _).
  unfold claim_vested_tokens, require. cbv zeta. fold e.
  rewrite Z.eqb_refl. simpl.
  destruct (Z.geb_spec now (cliff_time e)) as [Hcliff | Hcliff]; simpl.
  - specialize (Hw Hcliff).
    pose proof (linear_share_bounds e now Htot Hdur ltac:(lia)) as Hb.
    rewrite claim_tokens_sound by (fold e; (assumption || lia)). fold e.
    rewrite calculate_vested_amount_core.
    + rewrite vested_amount_sound by (assumption || lia). simpl.
      rewrite i64_sub_exact by (apply in_range_iff; lia). simpl.
      destruct (Z.gtb_spec (linear_share e now - total_withdrawn e) 0);
        destruct (Z.eqb_spec (linear_share e now) (total_withdrawn e));
        try lia; simpl; [| reflexivity].
      rewrite as_u64_nonnegative by (unfold I64.MAX; lia).
      destruct (tc (tokens s) _); [| reflexivity].
      rewrite i64_add_exact by (apply in_range_iff; lia). simpl.
      repeat f_equal. lia.
    + exact Hcliff.
    + intros Hend. split; [exact Hd |].
      apply in_range_iff in Hd. apply in_range_iff. lia.
  - rewrite claim_tokens_before_cliff by (fold e; lia). reflexivity.
Qed.

Lemma claim_vested_tokens_matches_claim_tokens_witness :
  claim_vested_tokens true spl_transfer_checked 255 47304000
      (mkAccounts alice (mkTokenLedger 48000 0))
    = match claim_tokens true spl_transfer_checked 47304000
              (mkAccounts alice (mkTokenLedger 48000 0)) with
      | (Ok _, s') => Done s'
      | (Err f, _) => Failed (Core f)
      end.
Proof.
  apply (claim_vested_tokens_matches_claim_tokens true TokenLedger
           spl_transfer_checked 47304000
           (mkAccounts alice (mkTokenLedger 48000 0))).
  - unfold sound_schedule, I64.MAX. simpl. lia.
  - simpl. lia.
  - reflexivity.
  - simpl. lia.
  - intros _. change (0 <= linear_share alice 47304000).
    replace (linear_share alice 47304000) with 18000 by reflexivity. lia.
Defined.

(** ** Who can claim, and what a claim touches *)

Lemma claim_constraints_true ctx e :
  claim_constraints ctx e = true ->
  ct_employee_address ctx = (ct_beneficiary ctx, ct_vesting_key ctx) /\
  beneficiary e = ct_beneficiary ctx /\
  vesting_account e = ct_vesting_key ctx /\
  treasury_token_account (ct_vesting_account ctx) = ct_treasury ctx /\
  mint (ct_vesting_account ctx) = ct_mint ctx.
Proof.
  unfold claim_constraints. rewrite !andb_true_iff, !N.eqb_eq.
  rewrite bool_decide_eq_true. tauto.
Qed.

(** X16. Whenever the handler of a claim gets to run, the schedule it
    works on is at the address derived from the signer and the vesting
    account presented, names the signer as its beneficiary and that
    vesting account as its company, and the treasury and the mint
    presented are the ones the vesting account records. So a signer who
    is not the beneficiary of the schedule he presents is rejected. *)
Theorem process_claim_tokens_authorized (oc : bool) (Tokens : Type)
    (tc : Tokens -> Z -> option Tokens) (store : Schedules) (l : Tokens)
    (ctx : ClaimTokens) (now : Z) (out : Result unit * Schedules * Tokens) :
  process_claim_tokens oc tc store l ctx now = Accepted out ->
  exists e,
    store !! (ct_beneficiary ctx, ct_vesting_key ctx) = Some e /\
    ct_employee_address ctx = (ct_beneficiary ctx, ct_vesting_key ctx) /\
    beneficiary e = ct_beneficiary ctx /\
    vesting_account e = ct_vesting_key ctx /\
    treasury_token_account (ct_vesting_account ctx) = ct_treasury ctx /\
    mint (ct_vesting_account ctx) = ct_mint ctx.
Proof.
  unfold process_claim_tokens.
  destruct (store !! ct_employee_address ctx) as [e |] eqn:He; [| discriminate].
  destruct (claim_constraints ctx e) eqn:Hc; [| discriminate].
  intros _. apply claim_constraints_true in Hc.
  destruct Hc as (Ha & Hb & Hv & Ht & Hm).
  exists e. rewrite <- Ha. auto 10.
Qed.

Lemma process_claim_tokens_authorized_witness :
  exists e,
    (<[(1%N, 2%N) := alice]> ∅ : Schedules)
      !! (ct_beneficiary alice_claims, ct_vesting_key alice_claims) = Some e /\
    ct_employee_address alice_claims
      = (ct_beneficiary alice_claims, ct_vesting_key alice_claims) /\
    beneficiary e = ct_beneficiary alice_claims /\
    vesting_account e = ct_vesting_key alice_claims /\
    treasury_token_account (ct_vesting_account alice_claims)
      = ct_treasury alice_claims /\
    mint (ct_vesting_account alice_claims) = ct_mint alice_claims.
Proof.
  apply (process_claim_tokens_authorized true TokenLedger spl_transfer_checked
           (<[(1%N, 2%N) := alice]> ∅) (mkTokenLedger 48000 0)
           alice_claims 47304000
           (Ok tt, <[(1%N, 2%N) := set_total_withdrawn 18000 alice]>
                     (<[(1%N, 2%N) := alice]> ∅),
            mkTokenLedger 30000 18000)).
  reflexivity.
Defined.

(** X17. A claim touches one schedule only. Whatever the outcome, every
    schedule at another address is as before; when the handler fails the
    store and the ledger are as before; and when it succeeds the schedule
    claimed from differs from the old one in [total_withdrawn] at most. *)
Theorem process_claim_tokens_frame (oc : bool) (Tokens : Type)
    (tc : Tokens -> Z -> option Tokens) (store store' : Schedules) (l l' : Tokens)
    (ctx : ClaimTokens) (now : Z) (r : Result unit) :
  process_claim_tokens oc tc store l ctx now = Accepted (r, store', l') ->
  (forall k, k <> ct_employee_address ctx -> store' !! k = store !! k) /\
  (forall f, r = Err f -> store' = store /\ l' = l) /\
  (r = Ok tt ->
   exists e w,
     store !! ct_employee_address ctx = Some e /\
     store' !! ct_employee_address ctx = Some (set_total_withdrawn w e)).
Proof.
  unfold process_claim_tokens.
  destruct (store !! ct_employee_address ctx) as [e |] eqn:He; [| discriminate].
  destruct (claim_constraints ctx e); [| discriminate].
  destruct (claim_tokens oc tc now (mkAccounts e l)) as [[[] | f] s'] eqn:Hclaim;
    intros [= <- <- <-].
  - destruct (claim_tokens_success oc Tokens tc now _ _ Hclaim)
      as (c & l1 & w & _ & _ & _ & _ & _ & ->).
    cbn [employee_account].
    split; [| split].
    + intros k Hk. apply lookup_insert_ne. congruence.
    + intros f [=].
    + intros _. exists e, w. split; [reflexivity | apply lookup_insert_eq].
  - split; [| split].
    + reflexivity.
    + intros f' _. split; reflexivity.
    + intros [=].
Qed.

Lemma process_claim_tokens_frame_witness :
  (forall k, k <> ct_employee_address alice_claims ->
     (<[(1%N, 2%N) := set_total_withdrawn 18000 alice]>
        (<[(1%N, 2%N) := alice]> ∅) : Schedules) !! k
     = (<[(1%N, 2%N) := alice]> ∅ : Schedules) !! k) /\
  (forall f, Ok tt = Err f ->
     (<[(1%N, 2%N) := set_total_withdrawn 18000 alice]>
        (<[(1%N, 2%N) := alice]> ∅) : Schedules)
     = <[(1%N, 2%N) := alice]> ∅ /\
     mkTokenLedger 30000 18000 = mkTokenLedger 48000 0) /\
  (Ok tt = Ok tt ->
   exists e w,
     (<[(1%N, 2%N) := alice]> ∅ : Schedules) !! ct_employee_address alice_claims
       = Some e /\
     (<[(1%N, 2%N) := set_total_withdrawn 18000 alice]>
        (<[(1%N, 2%N) := alice]> ∅) : Schedules) !! ct_employee_address alice_claims
       = Some (set_total_withdrawn w e)).
Proof.
  apply (process_claim_tokens_frame true TokenLedger spl_transfer_checked
           (<[(1%N, 2%N) := alice]> ∅)
           (<[(1%N, 2%N) := set_total_withdrawn 18000 alice]>
              (<[(1%N, 2%N) := alice]> ∅))
           (mkTokenLedger 48000 0) (mkTokenLedger 30000 18000)
           alice_claims 47304000 (Ok tt)).
  reflexivity.
Defined.

(** X18. A schedule stored by [create_employee_vesting] can be claimed
    from by its beneficiary only. A claim that presents it with any other
    signer is rejected, whatever else the claim presents; and whenever a
    claim that presents it gets to its handler, the signer is the
    beneficiary named at creation and the vesting account presented is
    the one the schedule was created under. *)
Theorem created_schedule_rejects_other_signers (oc : bool) (Tokens : Type)
    (tc : Tokens -> Z -> option Tokens) (store store' : Schedules) (l : Tokens)
    (cctx : CreateEmployeeAccount) (start_t end_t total cliff_t : Z)
    (ctx : ClaimTokens) (now : Z) :
  process_create_employee_vesting store cctx start_t end_t total cliff_t = Ok store' ->
  ct_employee_address ctx = (ctx_beneficiary cctx, ctx_vesting_key cctx) ->
  (ct_beneficiary ctx <> ctx_beneficiary cctx ->
   process_claim_tokens oc tc store' l ctx now = Rejected) /\
  (forall out,
      process_claim_tokens oc tc store' l ctx now = Accepted out ->
      ct_beneficiary ctx = ctx_beneficiary cctx /\
      ct_vesting_key ctx = ctx_vesting_key cctx).
Proof.
  intros Hcreate Ha.
  unfold process_create_employee_vesting in Hcreate.
  destruct (negb _); [discriminate |].
  destruct (store !! _); [discriminate |].
  simpl in Hcreate. injection Hcreate as <-.
  unfold process_claim_tokens. rewrite Ha, lookup_insert_eq.
  destruct (claim_constraints ctx _) eqn:Hc.
  - apply claim_constraints_true in Hc.
    destruct Hc as (_ & Hb & Hv & _). cbn in Hb, Hv.
    split; [congruence |]. intros out _. split; congruence.
  - split; [reflexivity | discriminate].
Qed.

Lemma created_schedule_rejects_other_signers_witness :
  process_claim_tokens true spl_transfer_checked
      (<[(1%N, 2%N) := alice]> ∅) (mkTokenLedger 48000 0) bob_claims_alice 47304000
    = Rejected /\
  (forall out,
      process_claim_tokens true spl_transfer_checked
          (<[(1%N, 2%N) := alice]> ∅) (mkTokenLedger 48000 0) alice_claims 47304000
        = Accepted out ->
      ct_beneficiary alice_claims = ctx_beneficiary register_alice /\
      ct_vesting_key alice_claims = ctx_vesting_key register_alice).
Proof.
  pose proof (created_schedule_rejects_other_signers
                true TokenLedger spl_transfer_checked
                ∅ (<[(1%N, 2%N) := alice]> ∅) (mkTokenLedger 48000 0)
                register_alice 0 126144000 48000 31536000 bob_claims_alice 47304000)
    as Hbob.
  pose proof (created_schedule_rejects_other_signers
                true TokenLedger spl_transfer_checked
                ∅ (<[(1%N, 2%N) := alice]> ∅) (mkTokenLedger 48000 0)
                register_alice 0 126144000 48000 31536000 alice_claims 47304000)
    as Halice.
  split.
  - apply Hbob; (reflexivity || discriminate).
  - apply Halice; reflexivity.
Defined.

(** ** Creation of a company's vesting account *)

(** What an accepted creation has checked and stored. *)
Lemma process_create_vesting_account_accepted
    (fpa : list (list Z) -> option (Pubkey * Z)) (reg reg' : Registry)
    (ctx : CreateVestingAccount) (name : list Z) :
  process_create_vesting_account fpa reg ctx name = Accepted reg' ->
  exists vb tb,
    fpa [name] = Some (cva_vesting_account ctx, vb) /\
    fpa [vesting_treasury_seed; name] = Some (cva_treasury_token_account ctx, tb) /\
    cva_mint ctx ∈ mints reg /\
    companies reg !! cva_vesting_account ctx = None /\
    treasuries reg !! cva_treasury_token_account ctx = None /\
    reg' = {| companies :=
                <[cva_vesting_account ctx :=
                    {| owner := cva_signer ctx;
                       mint := cva_mint ctx;
                       treasury_token_account := cva_treasury_token_account ctx;
                       company_name := name;
                       treasury_bump := tb;
                       vesting_bump := vb |}]> (companies reg);
              treasuries :=
                <[cva_treasury_token_account ctx :=
                    {| token_mint := cva_mint ctx;
                       token_authority := cva_treasury_token_account ctx;
                       token_amount := 0 |}]> (treasuries reg);
              mints := mints reg |}.
Proof.
  unfold process_create_vesting_account.
  destruct (fpa [name]) as [[va vb] |]; [| discriminate].
  destruct (fpa [vesting_treasury_seed; name]) as [[ta tb] |]; [| discriminate].
  destruct (_ && _) eqn:Hchecks; [| discriminate].
  rewrite !andb_true_iff, !N.eqb_eq, !bool_decide_eq_true in Hchecks.
  destruct Hchecks as ((((-> & ->) & Hmint) & Hfree) & Htfree).
  simpl. intros [= <-]. exists vb, tb. auto 10.
Qed.

(** X19. An accepted [create_vesting_account] stores, at the address
    derived from the company name, an account owned by the signer that
    carries the name, the mint, the address of the treasury and the
    treasury's canonical bump: the signer seeds [claim_tokens] builds from
    it are the treasury's seeds followed by that bump. The treasury is
    created empty, for that mint, under its own authority; the address was
    free before, and every other vesting account is as before. *)
Theorem create_vesting_account_effect
    (fpa : list (list Z) -> option (Pubkey * Z)) (reg reg' : Registry)
    (ctx : CreateVestingAccount) (name : list Z) :
  process_create_vesting_account fpa reg ctx name = Accepted reg' ->
  exists account tb,
    companies reg' !! cva_vesting_account ctx = Some account /\
    fpa [name] = Some (cva_vesting_account ctx, vesting_bump account) /\
    fpa [vesting_treasury_seed; name] = Some (treasury_token_account account, tb) /\
    signer_seeds account = [vesting_treasury_seed; name] ++ [[tb]] /\
    owner account = cva_signer ctx /\
    company_name account = name /\
    mint account = cva_mint ctx /\
    treasuries reg' !! treasury_token_account account
      = Some {| token_mint := mint account;
                token_authority := treasury_token_account account;
                token_amount := 0 |} /\
    companies reg !! cva_vesting_account ctx = None /\
    (forall k, k <> cva_vesting_account ctx ->
               companies reg' !! k = companies reg !! k).
Proof.
  intros H.
  destruct (process_create_vesting_account_accepted fpa reg reg' ctx name H)
    as (vb & tb & Hv & Ht & _ & Hfree & _ & ->).
  eexists. exists tb. cbn [companies treasuries].
  split; [apply lookup_insert_eq |]. cbn.
  repeat split; try assumption.
  - apply lookup_insert_eq.
  - intros k Hk. apply lookup_insert_ne. congruence.
Qed.

Lemma create_vesting_account_effect_witness :
  exists account tb,
    companies acme_registry !! cva_vesting_account register_acme = Some account /\
    toy_find_program_address [[65; 99; 109; 101]]
      = Some (cva_vesting_account register_acme, vesting_bump account) /\
    toy_find_program_address [vesting_treasury_seed; [65; 99; 109; 101]]
      = Some (treasury_token_account account, tb) /\
    signer_seeds account = [vesting_treasury_seed; [65; 99; 109; 101]] ++ [[tb]] /\
    owner account = cva_signer register_acme /\
    company_name account = [65; 99; 109; 101] /\
    mint account = cva_mint register_acme /\
    treasuries acme_registry !! treasury_token_account account
      = Some {| token_mint := mint account;
                token_authority := treasury_token_account account;
                token_amount := 0 |} /\
    companies empty_registry !! cva_vesting_account register_acme = None /\
    (forall k, k <> cva_vesting_account register_acme ->
               companies acme_registry !! k = companies empty_registry !! k).
Proof.
  apply (create_vesting_account_effect toy_find_program_address empty_registry
           acme_registry register_acme [65; 99; 109; 101]).
  reflexivity.
Defined.

(** X20. A company name is used once: after an accepted creation, every
    further [create_vesting_account] with the same name is rejected,
    whoever signs and whatever accounts are presented. *)
Theorem create_vesting_account_once
    (fpa : list (list Z) -> option (Pubkey * Z)) (reg reg' : Registry)
    (ctx ctx' : CreateVestingAccount) (name : list Z) :
  process_create_vesting_account fpa reg ctx name = Accepted reg' ->
  process_create_vesting_account fpa reg' ctx' name = Rejected.
Proof.
  intros H.
  destruct (process_create_vesting_account_accepted fpa reg reg' ctx name H)
    as (vb & tb & Hv & Ht & _ & _ & _ & ->).
  unfold process_create_vesting_account. rewrite Hv, Ht.
  cbn [companies treasuries mints].
  rewrite lookup_insert_eq.
  rewrite (bool_decide_eq_false_2 (Some _ = None)) by discriminate.
  rewrite andb_false_r. reflexivity.
Qed.

Lemma create_vesting_account_once_witness :
  process_create_vesting_account toy_find_program_address acme_registry
      register_acme [65; 99; 109; 101] = Rejected.
Proof.
  apply (create_vesting_account_once toy_find_program_address empty_registry
           acme_registry register_acme register_acme [65; 99; 109; 101]).
  reflexivity.
Defined.
